(** * Guarded publication pipeline of the publisher service

    A shallow embedding of the publisher service's gate evaluator
    ([SafetyGuardrails], services/guardrails.js), delivery executor
    ([EmailService.sendGuidance], services/email.js), job handler
    (queue/index.js) and HTTP routes (routes/index.js), over an explicit
    model of the relational store (infrastructure/database/schema.sql).

    Conventions.
    - Instants are milliseconds since the epoch, as [Z]; a nullable
      TIMESTAMPTZ column is an [option Z].  One operation reads one clock
      value [now] (JavaScript's [new Date()] and SQL's [NOW()] agree and do
      not advance inside an operation).
    - Every [db.query] call may throw; which calls throw is decided by an
      explicit [faults] value supplied by the environment.
    - An identifier held by the store, by a job or by an operation of the
      service is a uuid value, written as the text PostgreSQL prints for it
      (lower-case hex digits); the text of a request parameter that passed
      the validator is read into such a value by [uuid_of]. *)

From Stdlib Require Import ZArith List Bool Ascii String Lia Permutation.
From stdpp Require Import gmap strings list fin_maps pretty.

Local Open Scope Z_scope.

(** ** JavaScript values and dates *)

Module JS.

(** Dynamically typed property values, also used for JSONB members. *)
Inductive jsval :=
| JUndefined
| JNull
| JBool (b : bool)
| JNum (n : Z)
| JStr (s : string).

(** ToBoolean. *)
Definition truthy (v : jsval) : bool :=
  match v with
  | JUndefined | JNull => false
  | JBool b => b
  | JNum n => negb (n =? 0)
  | JStr s => negb (String.eqb s "")
  end.

(** [new Date(column).getTime()] for a TIMESTAMPTZ column as node-postgres
    returns it: a Date for a value, [null] for SQL NULL, and
    [new Date(null)] is the epoch. *)
Definition newDate (column : option Z) : Z :=
  match column with
  | Some t => t
  | None => 0
  end.

(** PostgreSQL's [->>]: the member of a JSONB object as text, NULL when the
    member is absent or JSON null. *)
Definition json_text (v : jsval) : option string :=
  match v with
  | JBool true => Some "true"%string
  | JBool false => Some "false"%string
  | JStr s => Some s
  | JNum n => Some (pretty n)
  | JNull | JUndefined => None
  end.

Definition json_member_text (o : gmap string jsval) (k : string) : option string :=
  match o !! k with
  | Some v => json_text v
  | None => None
  end.

(** [crypto.createHash('sha256').update(s).digest('hex')], kept symbolic:
    the digest of [s] is a value built from [s] that no operation of the
    service takes apart. *)
Inductive hexdigest :=
| Sha256Hex (input : string).

End JS.
Export JS.

(** ** Configuration (config/index.js, [config.safety]) *)

Record safety_config := {
  approvalRequired : bool;
  gracePeriodMinutes : Z;
  testGroupEmails : list string;
  enableRollback : bool
}.

(** The configuration with an empty environment: [APPROVAL_REQUIRED] and
    [ENABLE_ROLLBACK] unset, [GRACE_PERIOD_MINUTES] defaulting to 5 and
    [TEST_GROUP_EMAILS] to the empty list. *)
Definition default_config : safety_config :=
  {| approvalRequired := true;
     gracePeriodMinutes := 5;
     testGroupEmails := [];
     enableRollback := true |}.

(** ** The relational store *)

Module Db.

(** A row of [guidance_publications] as the JavaScript code sees it: the
    columns the service reads or writes.  The last two properties are read
    by the guardrails off the row object; schema.sql declares no such
    columns, so a row selected from that schema carries them as
    [JUndefined].  Left out are the columns the service never names
    ([bounced_deliveries], [opened_count], [clicked_count]) and
    [updated_at], which a trigger of the schema sets on every UPDATE. *)
Record publication := {
  pub_id : string;
  guidance_draft_id : string;
  segment_id : option string;
  publication_channel : string;
  scheduled_for : option Z;
  published_at : option Z;
  recipients_count : Z;
  successful_deliveries : Z;
  failed_deliveries : Z;
  grace_period_ends_at : option Z;
  can_rollback : bool;
  rolled_back_at : option Z;
  rollback_reason : option string;
  metadata : gmap string jsval;
  created_at : Z;
  test_mode : jsval;
  unsubscribe_url : jsval
}.

Record approval_request := {
  related_entity_id : string;
  request_type : string;
  status : string
}.

Record delivery_event := {
  publication_id : string;
  occurred_at : Z;
  event_type : string;
  recipient_hash : hexdigest;
  event_metadata : gmap string jsval
}.

(** The tables of schema.sql that the service's statements name.  The
    schema's triggers also append to [audit_log] on every write to
    [guidance_publications]; no statement of the service reads that table,
    and it is left out. *)
Record database := {
  guidance_publications : gmap string publication;
  approval_requests : list approval_request;
  delivery_events : list delivery_event
}.

Definition with_publications (f : gmap string publication → gmap string publication)
    (db : database) : database :=
  {| guidance_publications := f (guidance_publications db);
     approval_requests := approval_requests db;
     delivery_events := delivery_events db |}.

Definition insert_event (e : delivery_event) (db : database) : database :=
  {| guidance_publications := guidance_publications db;
     approval_requests := approval_requests db;
     delivery_events := delivery_events db ++ [e] |}.

(** *** UUID columns

    The id columns have type UUID: PostgreSQL reads the text it is given
    into a value and compares values, so the case of the hex digits of a
    parameter does not matter, and it prints a value in lower case. *)

Definition is_hex (c : ascii) : bool :=
  existsb (Ascii.eqb c) (list_ascii_of_string "0123456789abcdefABCDEF").

Definition lower_hex (c : ascii) : ascii :=
  if Ascii.eqb c "A" then "a"%char else
  if Ascii.eqb c "B" then "b"%char else
  if Ascii.eqb c "C" then "c"%char else
  if Ascii.eqb c "D" then "d"%char else
  if Ascii.eqb c "E" then "e"%char else
  if Ascii.eqb c "F" then "f"%char else c.

(** The uuid value a text denotes, as the text PostgreSQL prints for it. *)
Fixpoint uuid_of (text : string) : string :=
  match text with
  | EmptyString => EmptyString
  | String c rest => String (lower_hex c) (uuid_of rest)
  end.

(** [n] hex digits at the head of a text; the rest of the text. *)
Fixpoint hex_digits (n : nat) (text : string) : option string :=
  match n, text with
  | O, _ => Some text
  | S n, String c rest => if is_hex c then hex_digits n rest else None
  | S _, EmptyString => None
  end.

(** Groups of hex digits of the given lengths with a hyphen between them. *)
Fixpoint hex_groups (lengths : list nat) (text : string) : bool :=
  match lengths with
  | [] => false
  | n :: more =>
      match hex_digits n text, more with
      | Some EmptyString, [] => true
      | Some (String c rest), _ :: _ => Ascii.eqb c "-" && hex_groups more rest
      | _, _ => false
      end
  end.

(** The texts PostgreSQL reads into a uuid value in the form the routes
    receive them: 8-4-4-4-12 hex digits of either case.  Every version of
    the validator [isUUID()] admits texts of this form only. *)
Definition uuid_text (text : string) : bool :=
  hex_groups [8; 4; 4; 4; 12]%nat text.

(** *** The environment of one operation *)

(** Which queries of one operation throw, and what the SMTP transport
    answers: [transport_error i] is the message thrown by the [i]-th
    [sendMail] call, [None] when the call returns. *)
Record faults := {
  fetch_fails : bool;
  approval_lookup_fails : bool;
  test_group_lookup_fails : bool;
  rate_limit_lookup_fails : bool;
  events_lookup_fails : bool;
  update_fails : bool;
  insert_fails : nat → bool;
  queue_add_fails : bool;
  transport_error : nat → option string
}.

Definition no_faults : faults :=
  {| fetch_fails := false;
     approval_lookup_fails := false;
     test_group_lookup_fails := false;
     rate_limit_lookup_fails := false;
     events_lookup_fails := false;
     update_fails := false;
     insert_fails := λ _, false;
     queue_add_fails := false;
     transport_error := λ _, None |}.

(** The result of [await db.query(...)] inside a [try]. *)
Inductive query_result (A : Type) :=
| Rows (rows : A)
| Threw.
Arguments Rows {A} rows.
Arguments Threw {A}.

Definition query {A : Type} (fails : bool) (rows : A) : query_result A :=
  if fails then Threw else Rows rows.

(** SELECT * FROM approval_requests WHERE related_entity_id = $1
    AND request_type = 'guidance_publication' AND status = 'approved' *)
Definition is_approval_for (draft : string) (r : approval_request) : bool :=
  String.eqb (related_entity_id r) draft
  && String.eqb (request_type r) "guidance_publication"
  && String.eqb (status r) "approved".

Definition select_approvals (db : database) (draft : string) : list approval_request :=
  List.filter (is_approval_for draft) (approval_requests db).

(** SELECT * FROM guidance_publications WHERE guidance_draft_id = $1
    AND publication_channel = 'email' AND metadata->>'is_test' = 'true'
    AND published_at IS NOT NULL *)
Definition is_published_test_of (draft : string) (p : publication) : bool :=
  String.eqb (guidance_draft_id p) draft
  && String.eqb (publication_channel p) "email"
  && match json_member_text (metadata p) "is_test" with
     | Some t => String.eqb t "true"
     | None => false
     end
  && match published_at p with Some _ => true | None => false end.

Definition select_published_tests (db : database) (draft : string) : list publication :=
  List.filter (is_published_test_of draft)
    (List.map snd (map_to_list (guidance_publications db))).

(** SELECT COUNT( * ) FROM delivery_events WHERE event_type = 'sent'
    AND occurred_at > NOW() - INTERVAL '1 hour' *)
Definition one_hour : Z := 60 * 60 * 1000.

Definition is_recent_sent (now : Z) (e : delivery_event) : bool :=
  String.eqb (event_type e) "sent" && (now - one_hour <? occurred_at e).

Definition count_recent_sent (db : database) (now : Z) : Z :=
  Z.of_nat (List.length (List.filter (is_recent_sent now) (delivery_events db))).

End Db.
Export Db.

(** ** Delivery executor (services/email.js) *)

Module EmailService.

Record recipient := {
  recipient_id : string;
  email : string
}.

Record send_error := {
  error_email : string;
  error_message : string
}.

Record results := {
  sent : Z;
  failed : Z;
  errors : list send_error
}.

(** One iteration of the [for (const recipient of recipients)] loop: the
    body is a [try] around [sendMail], so a throw is counted and recorded
    and the loop goes on. *)
Definition attempt (fl : faults) (i : nat) (r : recipient) (acc : results) : results :=
  match transport_error fl i with
  | None =>
      {| sent := sent acc + 1; failed := failed acc; errors := errors acc |}
  | Some msg =>
      {| sent := sent acc;
         failed := failed acc + 1;
         errors := errors acc ++ [{| error_email := email r; error_message := msg |}] |}
  end.

Fixpoint sendLoop (fl : faults) (i : nat) (recipients : list recipient)
    (acc : results) : results :=
  match recipients with
  | [] => acc
  | r :: rest => sendLoop fl (S i) rest (attempt fl i r acc)
  end.

Definition sendGuidance (fl : faults) (recipients : list recipient) : results :=
  sendLoop fl 0%nat recipients {| sent := 0; failed := 0; errors := [] |}.

End EmailService.

(** ** Safety gate evaluator (services/guardrails.js) *)

Module SafetyGuardrails.

Record check := {
  layer : nat;
  name : string;
  message : option string
}.

Record check_lists := {
  passed : list check;
  failed : list check
}.

Record verdict := {
  safe : bool;
  checks : check_lists
}.

Definition passing (l : nat) (n : string) : check :=
  {| layer := l; name := n; message := None |}.

Definition failing (l : nat) (n m : string) : check :=
  {| layer := l; name := n; message := Some m |}.

Definition no_checks : check_lists := {| passed := []; failed := [] |}.

(** [checks.passed.push(c)] and [checks.failed.push(c)] *)
Definition push_passed (c : check) (cs : check_lists) : check_lists :=
  {| passed := passed cs ++ [c]; failed := failed cs |}.

Definition push_failed (c : check) (cs : check_lists) : check_lists :=
  {| passed := passed cs; failed := failed cs ++ [c] |}.

(** [checks.passed.push(...sub.passed); checks.failed.push(...sub.failed)] *)
Definition push_all (sub cs : check_lists) : check_lists :=
  {| passed := passed cs ++ passed sub; failed := failed cs ++ failed sub |}.

Definition checkApproval (fl : faults) (db : database) (publication : publication) : bool :=
  match query (approval_lookup_fails fl)
              (select_approvals db (guidance_draft_id publication)) with
  | Rows rows => (0 <? List.length rows)%nat
  | Threw => false
  end.

Definition checkGracePeriod (cfg : safety_config) (now : Z) (publication : publication) : bool :=
  match scheduled_for publication with
  | None => false
  | Some scheduled =>
      let gracePeriodMs := gracePeriodMinutes cfg * 60 * 1000 in
      gracePeriodMs <=? scheduled - now
  end.

Definition checkTestGroup (fl : faults) (db : database) (publication : publication) : bool :=
  if truthy (test_mode publication) then true
  else
    match query (test_group_lookup_fails fl)
                (select_published_tests db (guidance_draft_id publication)) with
    | Rows rows => (0 <? List.length rows)%nat
    | Threw => false
    end.

Definition checkRollbackCapability (now : Z) (publication : publication) : bool :=
  let gracePeriodEnds := newDate (grace_period_ends_at publication) in
  now <? gracePeriodEnds.

Definition checkDataProtection (publication : publication) : check_lists :=
  let checks := no_checks in
  let checks := push_passed (passing 5 "member_data_encryption") checks in
  let checks := push_passed (passing 6 "access_control") checks in
  let checks := push_passed (passing 7 "audit_logging") checks in
  let checks :=
    if negb (truthy (unsubscribe_url publication))
    then push_failed (failing 8 "gdpr_compliance" "Unsubscribe URL required") checks
    else push_passed (passing 8 "gdpr_compliance") checks in
  let checks := push_passed (passing 9 "data_retention") checks in
  let checks := push_passed (passing 10 "privacy_by_design") checks in
  checks.

Definition rate_ceiling : Z := 1000.

Definition checkRateLimit (fl : faults) (now : Z) (db : database) : bool :=
  match query (rate_limit_lookup_fails fl) (count_recent_sent db now) with
  | Rows count => count <? rate_ceiling
  | Threw => true
  end.

Definition checkOperationalSafety (fl : faults) (now : Z) (db : database) : check_lists :=
  let checks := no_checks in
  let rateOk := checkRateLimit fl now db in
  let checks :=
    if rateOk
    then push_passed (passing 11 "rate_limiting") checks
    else push_failed (failing 11 "rate_limiting" "Rate limit exceeded") checks in
  let checks := push_passed (passing 12 "graceful_degradation") checks in
  let checks := push_passed (passing 13 "backup_systems") checks in
  let checks := push_passed (passing 14 "disaster_recovery") checks in
  let checks := push_passed (passing 15 "health_monitoring") checks in
  checks.

Definition checkMonitoring : check_lists :=
  let checks := no_checks in
  let checks := push_passed (passing 16 "change_notifications") checks in
  let checks := push_passed (passing 17 "service_health") checks in
  let checks := push_passed (passing 18 "anomaly_detection") checks in
  let checks := push_passed (passing 19 "delivery_tracking") checks in
  checks.

Definition checkBeforePublish (cfg : safety_config) (fl : faults) (now : Z)
    (db : database) (publication : publication) : verdict :=
  let checks := no_checks in
  (* Layer 1: Approval required *)
  let checks :=
    if approvalRequired cfg then
      let approved := checkApproval fl db publication in
      if negb approved
      then push_failed
             (failing 1 "approval_required" "Publication requires human approval") checks
      else push_passed (passing 1 "approval_required") checks
    else checks in
  (* Layer 2: Grace period check *)
  let gracePeriodValid := checkGracePeriod cfg now publication in
  let checks :=
    if negb gracePeriodValid
    then push_failed
           (failing 2 "grace_period" "Publication must respect grace period") checks
    else push_passed (passing 2 "grace_period") checks in
  (* Layer 3: Test group option *)
  let testGroupValid := checkTestGroup fl db publication in
  let checks :=
    if negb testGroupValid
    then push_failed (failing 3 "test_group" "Test group delivery required first") checks
    else push_passed (passing 3 "test_group") checks in
  (* Layer 4: Rollback capability *)
  let canRollback := checkRollbackCapability now publication in
  let checks :=
    if negb canRollback && enableRollback cfg
    then push_failed (failing 4 "rollback_capability" "Rollback must be available") checks
    else push_passed (passing 4 "rollback_capability") checks in
  (* Layer 5-10: Data protection checks *)
  let checks := push_all (checkDataProtection publication) checks in
  (* Layer 11-15: Operational safety *)
  let checks := push_all (checkOperationalSafety fl now db) checks in
  (* Layer 16-19: Monitoring & alerting *)
  let checks := push_all checkMonitoring checks in
  {| safe := (List.length (failed checks) =? 0)%nat; checks := checks |}.

End SafetyGuardrails.

(** ** Job handler (queue/index.js) *)

Module Queue.
Import EmailService.

(** [testMode] is the raw value the schedule route put into the job. *)
Record job_data := {
  publicationId : string;
  testMode : jsval
}.

(** A Bull job: its payload, the instant it was added, the delay it was
    added with and the attempts made so far. *)
Record job := {
  data : job_data;
  timestamp : Z;
  delay : Z;
  attemptsMade : nat
}.

(** [defaultJobOptions]: [attempts: 3], exponential back-off from 2000 ms. *)
Definition attempts : nat := 3.
Definition backoff_delay : Z := 2000.

Inductive job_error :=
| PublicationNotFound (publicationId : string)
| SafetyChecksFailed (failed : list SafetyGuardrails.check)
| QueryFailed.

Record job_result := {
  result_publicationId : string;
  result_sent : Z;
  result_failed : Z;
  result_total : Z
}.

Inductive outcome :=
| Returned (r : job_result)
| Thrown (e : job_error).

(** [config.safety.testGroupEmails.map((email, i) => ({ id: `test-${i}`, email }))] *)
Definition testRecipients (cfg : safety_config) : list recipient :=
  imap (λ i email, {| recipient_id := "test-" +:+ pretty i; email := email |})
       (testGroupEmails cfg).

(** [getRecipients]: without a segment the function returns [[]] before any
    query; with one it selects from the relation [members], which schema.sql
    does not declare, so the query throws (undefined table) whenever it is
    issued. *)
Definition getRecipients (publication : publication) : query_result (list recipient) :=
  match segment_id publication with
  | None => Rows []
  | Some segment => Threw
  end.

(** The digest the body of [hashEmail] describes.  The declaration as
    written is rejected ([EarlyErrors.hashEmail_declaration]), so this is
    the function the handler's text refers to, not one the service has
    called. *)
Definition hashEmail (email : string) : hexdigest := Sha256Hex email.

(** UPDATE guidance_publications SET published_at = NOW(), ...,
    grace_period_ends_at = NOW() + INTERVAL 'gracePeriodMinutes minutes' *)
Definition mark_published (cfg : safety_config) (now : Z) (r : results) (n : Z)
    (p : publication) : publication :=
  {| pub_id := pub_id p;
     guidance_draft_id := guidance_draft_id p;
     segment_id := segment_id p;
     publication_channel := publication_channel p;
     scheduled_for := scheduled_for p;
     published_at := Some now;
     recipients_count := n;
     successful_deliveries := sent r;
     failed_deliveries := EmailService.failed r;
     grace_period_ends_at := Some (now + gracePeriodMinutes cfg * 60 * 1000);
     can_rollback := can_rollback p;
     rolled_back_at := rolled_back_at p;
     rollback_reason := rollback_reason p;
     metadata := metadata p;
     created_at := created_at p;
     test_mode := test_mode p;
     unsubscribe_url := unsubscribe_url p |}.

(** The event written for one recipient: the type is the literal 'sent'. *)
Definition sent_event (now : Z) (publicationId : string) (testMode : jsval)
    (r : recipient) : delivery_event :=
  {| publication_id := publicationId;
     occurred_at := now;
     event_type := "sent";
     recipient_hash := hashEmail (email r);
     event_metadata := {[ "test_mode"%string := testMode ]} |}.

(** The [for (const recipient of recipients)] loop of INSERTs; a throwing
    INSERT ends the job and leaves the rows inserted before it.  The
    boolean tells whether the loop ran to its end. *)
Fixpoint logEvents (fl : faults) (now : Z) (publicationId : string) (testMode : jsval)
    (i : nat) (recipients : list recipient) (db : database) : bool * database :=
  match recipients with
  | [] => (true, db)
  | r :: rest =>
      if insert_fails fl i then (false, db)
      else logEvents fl now publicationId testMode (S i) rest
             (insert_event (sent_event now publicationId testMode r) db)
  end.

Definition processJob (cfg : safety_config) (fl : faults) (now : Z) (j : job)
    (db : database) : outcome * database :=
  let publicationId := publicationId (data j) in
  let testMode := testMode (data j) in
  (* Fetch publication *)
  if fetch_fails fl then (Thrown QueryFailed, db) else
  match guidance_publications db !! publicationId with
  | None => (Thrown (PublicationNotFound publicationId), db)
  | Some publication =>
      (* Safety guardrails check *)
      let safetyCheck := SafetyGuardrails.checkBeforePublish cfg fl now db publication in
      if negb (SafetyGuardrails.safe safetyCheck) then
        (Thrown (SafetyChecksFailed
                   (SafetyGuardrails.failed (SafetyGuardrails.checks safetyCheck))), db)
      else
        (* Get recipients *)
        match (if truthy testMode then Rows (testRecipients cfg)
               else getRecipients publication) with
        | Threw => (Thrown QueryFailed, db)
        | Rows recipients =>
            (* Send emails *)
            let results := sendGuidance fl recipients in
            (* Update publication record *)
            if update_fails fl then (Thrown QueryFailed, db) else
            let total := Z.of_nat (List.length recipients) in
            let db :=
              with_publications
                (alter (mark_published cfg now results total) publicationId) db in
            (* Log delivery events *)
            match logEvents fl now publicationId testMode 0%nat recipients db with
            | (false, db) => (Thrown QueryFailed, db)
            | (true, db) =>
                (Returned {| result_publicationId := publicationId;
                             result_sent := sent results;
                             result_failed := EmailService.failed results;
                             result_total := total |}, db)
            end
        end
  end.

End Queue.

(** ** HTTP routes (routes/index.js) *)

Module Routes.

(** The validated body of POST /publications/schedule.  The two ids are
    texts that passed [isUUID()]; [test_mode] is absent or a raw value that
    passed [isBoolean()], which has no sanitizer: a boolean, or one of the
    texts 'true', 'false', '1', '0' (or the numbers 1, 0). *)
Record schedule_body := {
  body_guidance_draft_id : string;
  body_segment_id : option string;
  body_scheduled_for : Z;
  body_test_mode : option jsval
}.

(** [test_mode || false] *)
Definition or_false (test_mode : option jsval) : jsval :=
  match test_mode with
  | Some v => if truthy v then v else JBool false
  | None => JBool false
  end.

(** The fields GET /publications/:id answers with. *)
Record publication_status := {
  status_id : string;
  status_scheduled_for : option Z;
  status_published_at : option Z;
  status_recipients_count : Z;
  status_successful_deliveries : Z;
  status_failed_deliveries : Z;
  status_can_rollback : bool;
  status_grace_period_ends_at : option Z;
  status_rolled_back_at : option Z;
  status_events : gmap string Z
}.

Inductive response :=
| Scheduled (id : string) (scheduled_for : option Z) (test_mode : jsval)
| ValidationErrors
| NotFound
| GracePeriodExpired (grace_period_ended : Z)
| RolledBack (publication_id : string)
| PublicationStatus (s : publication_status)
| SafetyVerdict (v : SafetyGuardrails.verdict)
| InternalError (error : string).

(** The row INSERT ... RETURNING * creates: the five supplied columns, the
    two ids read into their uuid columns, and the schema's defaults for the
    rest. *)
Definition new_publication (now : Z) (id : string) (body : schedule_body) : publication :=
  {| pub_id := id;
     guidance_draft_id := uuid_of (body_guidance_draft_id body);
     segment_id := uuid_of <$> body_segment_id body;
     publication_channel := "email";
     scheduled_for := Some (body_scheduled_for body);
     published_at := None;
     recipients_count := 0;
     successful_deliveries := 0;
     failed_deliveries := 0;
     grace_period_ends_at := None;
     can_rollback := true;
     rolled_back_at := None;
     rollback_reason := None;
     metadata := {[ "test_mode"%string := or_false (body_test_mode body) ]};
     created_at := now;
     test_mode := JUndefined;
     unsubscribe_url := JUndefined |}.

(** [publishQueue.add({ publicationId, testMode }, { delay })] *)
Definition new_job (now : Z) (id : string) (body : schedule_body) : Queue.job :=
  {| Queue.data := {| Queue.publicationId := id;
                      Queue.testMode := or_false (body_test_mode body) |};
     Queue.timestamp := now;
     Queue.delay := body_scheduled_for body - now;
     Queue.attemptsMade := 0 |}.

(** POST /publications/schedule.  [id] is the key [uuid_generate_v4()]
    picks; an INSERT on a key already present violates the primary key and
    throws. *)
Definition schedule (fl : faults) (now : Z) (id : string) (body : schedule_body)
    (db : database) (queue : list Queue.job) : response * database * list Queue.job :=
  if insert_fails fl 0 then (InternalError "Failed to schedule publication", db, queue) else
  match guidance_publications db !! id with
  | Some _ => (InternalError "Failed to schedule publication", db, queue)
  | None =>
      let publication := new_publication now id body in
      let db := with_publications (insert id publication) db in
      if queue_add_fails fl then (InternalError "Failed to schedule publication", db, queue)
      else (Scheduled (pub_id publication) (scheduled_for publication)
                      (or_false (body_test_mode body)),
            db, queue ++ [new_job now id body])
  end.

(** UPDATE guidance_publications SET rolled_back_at = NOW(),
    rollback_reason = $1, can_rollback = false WHERE id = $2 *)
Definition mark_rolled_back (now : Z) (reason : string) (p : publication) : publication :=
  {| pub_id := pub_id p;
     guidance_draft_id := guidance_draft_id p;
     segment_id := segment_id p;
     publication_channel := publication_channel p;
     scheduled_for := scheduled_for p;
     published_at := published_at p;
     recipients_count := recipients_count p;
     successful_deliveries := successful_deliveries p;
     failed_deliveries := failed_deliveries p;
     grace_period_ends_at := grace_period_ends_at p;
     can_rollback := false;
     rolled_back_at := Some now;
     rollback_reason := Some reason;
     metadata := metadata p;
     created_at := created_at p;
     test_mode := test_mode p;
     unsubscribe_url := unsubscribe_url p |}.

(** The handler of POST /publications/:id/rollback on the uuid value [id]
    of its parameter.  It reads and writes the store only; it never refers
    to the queue. *)
Definition rollback (fl : faults) (now : Z) (id reason : string) (db : database)
    : response * database :=
  if String.eqb reason "" then (ValidationErrors, db) else
  (* Fetch publication *)
  if fetch_fails fl then (InternalError "Failed to rollback publication", db) else
  match guidance_publications db !! id with
  | None => (NotFound, db)
  | Some publication =>
      (* Check if within grace period *)
      let gracePeriodEnds := newDate (grace_period_ends_at publication) in
      if gracePeriodEnds <? now then (GracePeriodExpired gracePeriodEnds, db)
      else
        (* Perform rollback *)
        if update_fails fl then (InternalError "Failed to rollback publication", db)
        else (RolledBack id,
              with_publications (alter (mark_rolled_back now reason) id) db)
  end.

(** POST /publications/:id/rollback as the server receives it.  [isUUID]
    is the validator behind [param('id').isUUID()], which belongs to the
    installed express-validator and not to the repository; PostgreSQL reads
    the text it admits into the uuid value the handler's two statements
    compare with, and the answer repeats the text as it came. *)
Definition rollback_request (isUUID : string → bool) (fl : faults) (now : Z)
    (id reason : string) (db : database) : response * database :=
  if negb (isUUID id) then (ValidationErrors, db) else
  match rollback fl now (uuid_of id) reason db with
  | (RolledBack _, db) => (RolledBack id, db)
  | answer => answer
  end.

(** SELECT event_type, COUNT( * ) FROM delivery_events
    WHERE publication_id = $1 GROUP BY event_type *)
Definition count_events (db : database) (id : string) : gmap string Z :=
  foldl (λ events e,
           if String.eqb (publication_id e) id
           then <[ event_type e := default 0 (events !! event_type e) + 1 ]> events
           else events)
        ∅ (delivery_events db).

(** The handler of GET /publications/:id on the uuid value [id] of its
    parameter. *)
Definition getPublication (fl : faults) (id : string) (db : database) : response :=
  if fetch_fails fl then InternalError "Failed to fetch publication" else
  match guidance_publications db !! id with
  | None => NotFound
  | Some publication =>
      if events_lookup_fails fl then InternalError "Failed to fetch publication" else
      PublicationStatus
        {| status_id := pub_id publication;
           status_scheduled_for := scheduled_for publication;
           status_published_at := published_at publication;
           status_recipients_count := recipients_count publication;
           status_successful_deliveries := successful_deliveries publication;
           status_failed_deliveries := failed_deliveries publication;
           status_can_rollback := can_rollback publication;
           status_grace_period_ends_at := grace_period_ends_at publication;
           status_rolled_back_at := rolled_back_at publication;
           status_events := count_events db id |}
  end.

(** The handler of POST /publications/:id/safety-check on the uuid value
    [id] of its parameter. *)
Definition safetyCheck (cfg : safety_config) (fl : faults) (now : Z) (id : string)
    (db : database) : response :=
  if fetch_fails fl then InternalError "Failed to perform safety check" else
  match guidance_publications db !! id with
  | None => NotFound
  | Some publication =>
      SafetyVerdict (SafetyGuardrails.checkBeforePublish cfg fl now db publication)
  end.

End Routes.

(** ** The service: store, queue and the operations that change them *)

Module Service.
Import Queue Routes.

Record system := {
  store : database;
  waiting : list job;
  failed_jobs : list job
}.

Inductive operation :=
| OpSchedule (id : string) (body : schedule_body)
| OpRollback (id reason : string)
| OpGetPublication (id : string)
| OpSafetyCheck (id : string)
| OpProcessJob (i : nat).

Inductive reply :=
| Http (r : response)
| JobRan (o : outcome)
| NoJob.

(** A delayed job is handed to the handler once its delay has elapsed. *)
Definition due (now : Z) (j : job) : bool := timestamp j + delay j <=? now.

(** A failed attempt: the job is retried after the back-off while attempts
    remain, and kept among the failed jobs ([removeOnFail: false]) after
    the last one. *)
Definition retry (now : Z) (j : job) : job :=
  {| data := data j;
     timestamp := now;
     delay := (2 ^ Z.of_nat (S (attemptsMade j)) - 1) * backoff_delay;
     attemptsMade := S (attemptsMade j) |}.

Definition processNext (cfg : safety_config) (fl : faults) (now : Z) (i : nat)
    (sys : system) : reply * system :=
  match waiting sys !! i with
  | None => (NoJob, sys)
  | Some j =>
      if negb (due now j) then (NoJob, sys) else
      let '(o, db) := processJob cfg fl now j (store sys) in
      match o with
      | Returned _ =>
          (JobRan o, {| store := db;
                        waiting := delete i (waiting sys);
                        failed_jobs := failed_jobs sys |})
      | Thrown _ =>
          if (S (attemptsMade j) <? attempts)%nat
          then (JobRan o, {| store := db;
                             waiting := <[ i := retry now j ]> (waiting sys);
                             failed_jobs := failed_jobs sys |})
          else (JobRan o, {| store := db;
                             waiting := delete i (waiting sys);
                             failed_jobs := failed_jobs sys ++ [j] |})
      end
  end.

Definition step (cfg : safety_config) (fl : faults) (now : Z) (op : operation)
    (sys : system) : reply * system :=
  match op with
  | OpSchedule id body =>
      let '(r, db, queue) := schedule fl now id body (store sys) (waiting sys) in
      (Http r, {| store := db; waiting := queue; failed_jobs := failed_jobs sys |})
  | OpRollback id reason =>
      let '(r, db) := rollback fl now id reason (store sys) in
      (Http r, {| store := db; waiting := waiting sys; failed_jobs := failed_jobs sys |})
  | OpGetPublication id => (Http (getPublication fl id (store sys)), sys)
  | OpSafetyCheck id => (Http (safetyCheck cfg fl now id (store sys)), sys)
  | OpProcessJob i => processNext cfg fl now i sys
  end.

End Service.

(** ** Static semantics of function declarations in module code *)

Module EarlyErrors.

#[local] Unset Elimination Schemes.
Inductive expression :=
| Identifier (x : string)
| Literal (s : string)
| MemberExpression (object : expression) (property : string)
| CallExpression (callee : expression) (arguments : list expression)
| ImportExpression (source : expression)
| AwaitExpression (argument : expression).
#[local] Set Elimination Schemes.

Inductive statement :=
| ConstDeclaration (x : string) (init : expression)
| ReturnStatement (argument : expression).

Record function_declaration := {
  async : bool;
  function_name : string;
  params : list string;
  body : list statement
}.

Fixpoint contains_await (e : expression) : bool :=
  match e with
  | Identifier _ | Literal _ => false
  | MemberExpression o _ => contains_await o
  | CallExpression c args => contains_await c || existsb contains_await args
  | ImportExpression s => contains_await s
  | AwaitExpression _ => true
  end.

Definition statement_contains_await (s : statement) : bool :=
  match s with
  | ConstDeclaration _ e | ReturnStatement e => contains_await e
  end.

(** In module code [await] is reserved: an await expression in the body of
    a function that is not [async] is a syntax error, and a module holding
    one is rejected when it is loaded. *)
Definition accepted (f : function_declaration) : bool :=
  async f || negb (existsb statement_contains_await (body f)).

(** [function hashEmail(email)] of queue/index.js, lines 150-154. *)
Definition hashEmail_declaration : function_declaration :=
  {| async := false;
     function_name := "hashEmail";
     params := ["email"%string];
     body :=
       [ ConstDeclaration "crypto"
           (AwaitExpression (ImportExpression (Literal "crypto")));
         ReturnStatement
           (CallExpression
              (MemberExpression
                 (CallExpression
                    (MemberExpression
                       (CallExpression
                          (MemberExpression (Identifier "crypto") "createHash")
                          [Literal "sha256"])
                       "update")
                    [Identifier "email"])
                 "digest")
              [Literal "hex"]) ] |}.

End EarlyErrors.

(** ** Vocabulary of the properties *)

Module Properties.
Import SafetyGuardrails.

(** Whether a verdict lists a layer among its passed, resp. failed, checks. *)
Definition layer_passed (v : verdict) (l : nat) : bool :=
  existsb (λ c, (layer c =? l)%nat) (passed (checks v)).

Definition layer_failed (v : verdict) (l : nat) : bool :=
  existsb (λ c, (layer c =? l)%nat) (failed (checks v)).

(** The checks of every layer but [l], in their order. *)
Definition other_layers (l : nat) (cs : list check) : list check :=
  List.filter (λ c, negb (layer c =? l)%nat) cs.

(** The same environment, except for what the rate-limit count query does. *)
Definition with_rate_limit_lookup (fails : bool) (fl : faults) : faults :=
  {| fetch_fails := fetch_fails fl;
     approval_lookup_fails := approval_lookup_fails fl;
     test_group_lookup_fails := test_group_lookup_fails fl;
     rate_limit_lookup_fails := fails;
     events_lookup_fails := events_lookup_fails fl;
     update_fails := update_fails fl;
     insert_fails := insert_fails fl;
     queue_add_fails := queue_add_fails fl;
     transport_error := transport_error fl |}.

(** The same environment, except for what the approval lookup does. *)
Definition with_approval_lookup (fails : bool) (fl : faults) : faults :=
  {| fetch_fails := fetch_fails fl;
     approval_lookup_fails := fails;
     test_group_lookup_fails := test_group_lookup_fails fl;
     rate_limit_lookup_fails := rate_limit_lookup_fails fl;
     events_lookup_fails := events_lookup_fails fl;
     update_fails := update_fails fl;
     insert_fails := insert_fails fl;
     queue_add_fails := queue_add_fails fl;
     transport_error := transport_error fl |}.

(** An approved approval request recorded for a draft. *)
Definition recorded_approval (db : database) (draft : string) (r : approval_request) : Prop :=
  In r (approval_requests db)
  ∧ related_entity_id r = draft
  ∧ request_type r = "guidance_publication"%string
  ∧ status r = "approved"%string.

(** [rolled_back_at != null ⇒ can_rollback = false], for every row. *)
Definition rolled_back_is_locked (db : database) : Prop :=
  ∀ id p, guidance_publications db !! id = Some p →
          rolled_back_at p ≠ None → can_rollback p = false.






(** A 'sent' event of the trailing hour: its type is 'sent' and it occurred
    less than 3 600 000 ms before [now]. *)
Definition sent_in_trailing_hour (now : Z) (e : delivery_event) : Prop :=
  event_type e = "sent"%string ∧ now - 3600000 < occurred_at e.

(** The table holds [n] rows, at [n] different places, that are 'sent'
    events of the trailing hour. *)
Definition recent_sends (db : database) (now : Z) (n : nat) : Prop :=
  ∃ es, sublist es (delivery_events db) ∧ List.length es = n
        ∧ Forall (sent_in_trailing_hour now) es.

End Properties.

(** ** Concrete publications, stores and environments *)

Module Scenario.
Import EmailService Queue Routes Service.
Local Open Scope string_scope.

Definition minute : Z := 60 * 1000.
Definition T0 : Z := 1700000000000.

Definition draft : string := "d0000000-0000-4000-8000-000000000001".
Definition test_id : string := "a0000000-0000-4000-8000-00000000000a".
Definition full_id : string := "f0000000-0000-4000-8000-00000000000f".
Definition segment : string := "50000000-0000-4000-8000-000000000005".

Definition approved : approval_request :=
  {| related_entity_id := draft;
     request_type := "guidance_publication";
     status := "approved" |}.

Definition empty_store : database :=
  {| guidance_publications := ∅;
     approval_requests := [approved];
     delivery_events := [] |}.

(** *** Scenario A: a test-mode publication scheduled 10 minutes out, grace
    duration 5 minutes, approval present, one test address *)

Definition config_A : safety_config :=
  {| approvalRequired := true;
     gracePeriodMinutes := 5;
     testGroupEmails := ["comms@nuj.org.uk"];
     enableRollback := true |}.

Definition body_A : schedule_body :=
  {| body_guidance_draft_id := draft;
     body_segment_id := None;
     body_scheduled_for := T0 + 10 * minute;
     body_test_mode := Some (JBool true) |}.

Definition system_0 : system :=
  {| store := empty_store; waiting := []; failed_jobs := [] |}.

(** The system after POST /publications/schedule at [T0]. *)
Definition system_A : system :=
  (step config_A no_faults T0 (OpSchedule test_id body_A) system_0).2.

(** Scenario A's row with everything but the grace-period layer disposed to
    pass: the row object carries a true [test_mode] and an unsubscribe URL,
    and rollback is not required by the configuration. *)
Definition favourable_A : publication :=
  {| pub_id := test_id;
     guidance_draft_id := draft;
     segment_id := None;
     publication_channel := "email";
     scheduled_for := Some (T0 + 10 * minute);
     published_at := None;
     recipients_count := 0;
     successful_deliveries := 0;
     failed_deliveries := 0;
     grace_period_ends_at := None;
     can_rollback := true;
     rolled_back_at := None;
     rollback_reason := None;
     metadata := {[ "test_mode" := JBool true ]};
     created_at := T0;
     test_mode := JBool true;
     unsubscribe_url := JStr "https://nuj.org.uk/unsubscribe" |}.

Definition config_A_no_rollback : safety_config :=
  {| approvalRequired := true;
     gracePeriodMinutes := 5;
     testGroupEmails := ["comms@nuj.org.uk"];
     enableRollback := false |}.

(** *** A test-mode publication made through the schedule route and then
    completed, followed by a full publication of the same draft *)

Definition body_test : schedule_body :=
  {| body_guidance_draft_id := draft;
     body_segment_id := None;
     body_scheduled_for := T0;
     body_test_mode := Some (JBool true) |}.

Definition body_full : schedule_body :=
  {| body_guidance_draft_id := draft;
     body_segment_id := Some segment;
     body_scheduled_for := T0 + 60 * minute;
     body_test_mode := None |}.

(** The test publication's row once a delivery to the one test address has
    been written back. *)
Definition completed_test : publication :=
  mark_published config_A T0 {| sent := 1; failed := 0; errors := [] |} 1
    (new_publication (T0 - 10 * minute) test_id body_test).

Definition scheduled_full : publication :=
  new_publication (T0 + minute) full_id body_full.

Definition store_after_test : database :=
  {| guidance_publications := <[ full_id := scheduled_full ]> {[ test_id := completed_test ]};
     approval_requests := [approved];
     delivery_events := [] |}.

(** *** Rows with a delivery on record *)

(** A published test publication as [checkTestGroup] looks for it. *)
Definition is_test_row : publication :=
  {| pub_id := test_id;
     guidance_draft_id := draft;
     segment_id := None;
     publication_channel := "email";
     scheduled_for := Some (T0 - 60 * minute);
     published_at := Some (T0 - 60 * minute);
     recipients_count := 1;
     successful_deliveries := 1;
     failed_deliveries := 0;
     grace_period_ends_at := Some (T0 - 55 * minute);
     can_rollback := true;
     rolled_back_at := None;
     rollback_reason := None;
     metadata := {[ "is_test" := JBool true ]};
     created_at := T0 - 120 * minute;
     test_mode := JUndefined;
     unsubscribe_url := JUndefined |}.

(** The 'sent' event on record for the test publication. *)
Definition recorded_send : delivery_event :=
  {| publication_id := test_id;
     occurred_at := T0 - 60 * minute;
     event_type := "sent";
     recipient_hash := Sha256Hex "comms@nuj.org.uk";
     event_metadata := {[ "test_mode" := JBool true ]} |}.

(** The delivered test publication, its event, and a full publication of the
    same draft and of a segment, requested through the schedule route at
    [T0 + 1 min] for [T0 + 60 min], with its job waiting. *)
Definition delivered_store : database :=
  {| guidance_publications := <[ full_id := scheduled_full ]> {[ test_id := is_test_row ]};
     approval_requests := [approved];
     delivery_events := [recorded_send] |}.

Definition delivered_system : system :=
  {| store := delivered_store;
     waiting := [new_job (T0 + minute) full_id body_full];
     failed_jobs := [] |}.

(** *** Scenario C: three recipients, the second of whom the transport
    refuses *)

Definition three_recipients : list recipient :=
  [ {| recipient_id := "00000000-0000-4000-8000-000000000001"; email := "ann@example.org" |};
    {| recipient_id := "00000000-0000-4000-8000-000000000002"; email := "bob@example.org" |};
    {| recipient_id := "00000000-0000-4000-8000-000000000003"; email := "cat@example.org" |} ].

(** The second [sendMail] call throws, every other call returns. *)
Definition second_send_fails : faults :=
  {| fetch_fails := false;
     approval_lookup_fails := false;
     test_group_lookup_fails := false;
     rate_limit_lookup_fails := false;
     events_lookup_fails := false;
     update_fails := false;
     insert_fails := λ _, false;
     queue_add_fails := false;
     transport_error := λ i, if (i =? 1)%nat then Some "Connection refused" else None |}.

(** *** A publication inside its grace window that was already rolled back *)

Definition rolled_back_row : publication :=
  {| pub_id := full_id;
     guidance_draft_id := draft;
     segment_id := Some segment;
     publication_channel := "email";
     scheduled_for := Some (T0 - minute);
     published_at := Some T0;
     recipients_count := 3;
     successful_deliveries := 3;
     failed_deliveries := 0;
     grace_period_ends_at := Some (T0 + 5 * minute);
     can_rollback := false;
     rolled_back_at := Some (T0 + minute);
     rollback_reason := Some "wrong draft";
     metadata := {[ "test_mode" := JBool false ]};
     created_at := T0 - 30 * minute;
     test_mode := JUndefined;
     unsubscribe_url := JUndefined |}.

Definition rolled_back_store : database :=
  {| guidance_publications := {[ full_id := rolled_back_row ]};
     approval_requests := [approved];
     delivery_events := [] |}.

(** A store with a rolled-back row and a row inside its grace window for
    the next five minutes. *)
Definition mixed_store : database :=
  {| guidance_publications := <[ test_id := is_test_row ]> {[ full_id := rolled_back_row ]};
     approval_requests := [approved];
     delivery_events := [] |}.

Definition mixed_system : system :=
  {| store := mixed_store; waiting := []; failed_jobs := [] |}.

End Scenario.

(** ** Test delivery ([EmailService.sendTestEmail], services/email.js) *)

Module TestEmail.

Record test_result := {
  test_email : string;
  success : bool;
  test_error : option string
}.

(** One iteration of the loop over [testEmails]: [results.push] of a success
    when [sendMail] returns, of a failure with the message when it throws. *)
Definition attemptTest (fl : faults) (i : nat) (email : string)
    (results : list test_result) : list test_result :=
  match transport_error fl i with
  | None =>
      results ++ [{| test_email := email; success := true; test_error := None |}]
  | Some msg =>
      results ++ [{| test_email := email; success := false; test_error := Some msg |}]
  end.

Fixpoint sendTestLoop (fl : faults) (i : nat) (testEmails : list string)
    (results : list test_result) : list test_result :=
  match testEmails with
  | [] => results
  | email :: rest => sendTestLoop fl (S i) rest (attemptTest fl i email results)
  end.

Definition sendTestEmail (fl : faults) (testEmails : list string) : list test_result :=
  sendTestLoop fl 0%nat testEmails [].

End TestEmail.

(** ** Reading the environment (config/index.js) *)

Module Config.

(** [s.split(',')]: the pieces of [s] between its commas, one piece more
    than there are commas. *)
Fixpoint split_comma (s : string) : list string :=
  match s with
  | EmptyString => [EmptyString]
  | String c rest =>
      if Ascii.eqb c ","%char then EmptyString :: split_comma rest
      else match split_comma rest with
           | piece :: pieces => String c piece :: pieces
           | [] => [String c EmptyString]
           end
  end.

(** [v || d] for an environment variable, which is a string or undefined. *)
Definition or_default (v : option string) (d : string) : string :=
  match v with
  | Some s => if String.eqb s "" then d else s
  | None => d
  end.

(** [v !== 'false'] *)
Definition not_false (v : option string) : bool :=
  match v with
  | Some s => negb (String.eqb s "false")
  | None => true
  end.

(** [Boolean] as the predicate of [filter] on strings. *)
Definition nonempty (s : string) : bool := negb (String.eqb s "").

(** [(process.env.TEST_GROUP_EMAILS || '').split(',').filter(Boolean)] *)
Definition testGroupEmails_of (env : gmap string string) : list string :=
  List.filter nonempty (split_comma (or_default (env !! "TEST_GROUP_EMAILS"%string) "")).

(** [process.env.APPROVAL_REQUIRED !== 'false'] and
    [process.env.ENABLE_ROLLBACK !== 'false'] *)
Definition approvalRequired_of (env : gmap string string) : bool :=
  not_false (env !! "APPROVAL_REQUIRED"%string).

Definition enableRollback_of (env : gmap string string) : bool :=
  not_false (env !! "ENABLE_ROLLBACK"%string).

(** [process.env.CORS_ORIGINS ? process.env.CORS_ORIGINS.split(',')
     : ['http://localhost:4000']] *)
Definition corsOrigins_of (env : gmap string string) : list string :=
  match env !! "CORS_ORIGINS"%string with
  | Some s => if String.eqb s "" then ["http://localhost:4000"%string] else split_comma s
  | None => ["http://localhost:4000"%string]
  end.

Definition comma_free (s : string) : bool :=
  forallb (λ c, negb (Ascii.eqb c ","%char)) (list_ascii_of_string s).

End Config.

(** ** Vocabulary of the further properties *)

Module Further.
Import EmailService SafetyGuardrails Queue Routes Service.

(** The number of checks of a layer in a list. *)
Definition count_layer (l : nat) (cs : list check) : nat :=
  List.length (List.filter (λ c, (layer c =? l)%nat) cs).

(** The layers a verdict reports under a configuration: 2 to 19, and 1 when
    approval is required. *)
Definition reported (cfg : safety_config) (l : nat) : bool :=
  ((2 <=? l)%nat && (l <=? 19)%nat) || ((l =? 1)%nat && approvalRequired cfg).

(** The store with one row replaced. *)
Definition with_row (id : string) (p : publication) (db : database) : database :=
  with_publications (insert id p) db.

(** The delivery events of one publication and one type. *)
Definition events_of (db : database) (id ty : string) : list delivery_event :=
  List.filter (λ e, String.eqb (publication_id e) id && String.eqb (event_type e) ty)
              (delivery_events db).

(** [can_rollback = false ⇒ rolled_back_at != null], for every row. *)
Definition locked_only_by_rollback (db : database) : Prop :=
  ∀ id p, guidance_publications db !! id = Some p →
          can_rollback p = false → rolled_back_at p ≠ None.

End Further.

(** ** Further concrete environments *)

Module Cases.
Import Queue Routes Service.

(** The queue cannot be reached; the store answers. *)
Definition queue_down : faults :=
  {| fetch_fails := false;
     approval_lookup_fails := false;
     test_group_lookup_fails := false;
     rate_limit_lookup_fails := false;
     events_lookup_fails := false;
     update_fails := false;
     insert_fails := λ _, false;
     queue_add_fails := true;
     transport_error := λ _, None |}.

(** What the status route answers for the delivered test publication of
    [Scenario]. *)
Definition status_after_delivery : publication_status :=
  {| status_id := Scenario.test_id;
     status_scheduled_for := Some (Scenario.T0 - 60 * Scenario.minute);
     status_published_at := Some (Scenario.T0 - 60 * Scenario.minute);
     status_recipients_count := 1;
     status_successful_deliveries := 1;
     status_failed_deliveries := 0;
     status_can_rollback := true;
     status_grace_period_ends_at := Some (Scenario.T0 - 55 * Scenario.minute);
     status_rolled_back_at := None;
     status_events := count_events Scenario.delivered_store Scenario.test_id |}.

(** [TEST_GROUP_EMAILS] written with a doubled and a trailing comma. *)
Definition env_with_stray_commas : gmap string string :=
  {[ "TEST_GROUP_EMAILS"%string := "a@nuj.example,,b@nuj.example,"%string ]}.

(** The instants of the three attempts on scenario A's job. *)
Definition first_attempt : Z := Scenario.T0 + 10 * Scenario.minute.
Definition second_attempt : Z := first_attempt + 2000.
Definition third_attempt : Z := second_attempt + 6000.

End Cases.

(** * Properties *)

Import EmailService SafetyGuardrails Queue Routes Service Properties.

(** ** The gate evaluator *)

Section CheckLists.
Variables (b : bool) (c c' : check) (cs sub : check_lists).

Lemma failed_push_all : failed (push_all sub cs) = failed cs ++ failed sub.
Proof. reflexivity. Qed.

Lemma passed_push_all : passed (push_all sub cs) = passed cs ++ passed sub.
Proof. reflexivity. Qed.

Lemma failed_fail_or_pass :
  failed (if b then push_failed c cs else push_passed c' cs)
  = failed cs ++ (if b then [c] else []).
Proof. destruct b; cbn; by rewrite ?app_nil_r. Qed.

Lemma passed_fail_or_pass :
  passed (if b then push_failed c cs else push_passed c' cs)
  = passed cs ++ (if b then [] else [c']).
Proof. destruct b; cbn; by rewrite ?app_nil_r. Qed.

Lemma failed_pass_or_fail :
  failed (if b then push_passed c cs else push_failed c' cs)
  = failed cs ++ (if b then [] else [c']).
Proof. destruct b; cbn; by rewrite ?app_nil_r. Qed.

Lemma passed_pass_or_fail :
  passed (if b then push_passed c cs else push_failed c' cs)
  = passed cs ++ (if b then [c] else []).
Proof. destruct b; cbn; by rewrite ?app_nil_r. Qed.

Lemma existsb_optional (f : check → bool) :
  existsb f (if b then [c] else []) = b && f c.
Proof. destruct b; cbn; by rewrite ?orb_false_r. Qed.

Lemma existsb_optional_not (f : check → bool) :
  existsb f (if b then [] else [c]) = negb b && f c.
Proof. destruct b; cbn; by rewrite ?orb_false_r. Qed.

End CheckLists.

Section Gate.
Variables (cfg : safety_config) (fl : faults) (now : Z) (db : database).

(** The verdict's two lists, layer by layer. *)
Lemma failed_checks (p : publication) :
  failed (checks (checkBeforePublish cfg fl now db p)) =
    (if approvalRequired cfg && negb (checkApproval fl db p)
     then [failing 1 "approval_required" "Publication requires human approval"] else [])
    ++ (if negb (checkGracePeriod cfg now p)
        then [failing 2 "grace_period" "Publication must respect grace period"] else [])
    ++ (if negb (checkTestGroup fl db p)
        then [failing 3 "test_group" "Test group delivery required first"] else [])
    ++ (if negb (checkRollbackCapability now p) && enableRollback cfg
        then [failing 4 "rollback_capability" "Rollback must be available"] else [])
    ++ (if negb (truthy (unsubscribe_url p))
        then [failing 8 "gdpr_compliance" "Unsubscribe URL required"] else [])
    ++ (if checkRateLimit fl now db then []
        else [failing 11 "rate_limiting" "Rate limit exceeded"]).
Proof.
  unfold checkBeforePublish. cbv zeta. cbn [checks].
  rewrite !failed_push_all, !failed_fail_or_pass.
  replace (failed checkMonitoring) with (@nil check) by reflexivity.
  replace (failed (checkOperationalSafety fl now db))
    with (if checkRateLimit fl now db then []
          else [failing 11 "rate_limiting" "Rate limit exceeded"])
    by (unfold checkOperationalSafety; by destruct (checkRateLimit fl now db)).
  replace (failed (checkDataProtection p))
    with (if negb (truthy (unsubscribe_url p))
          then [failing 8 "gdpr_compliance" "Unsubscribe URL required"] else [])
    by (unfold checkDataProtection; by destruct (truthy (unsubscribe_url p))).
  rewrite app_nil_r, <- !app_assoc. f_equal.
  by destruct (approvalRequired cfg), (checkApproval fl db p).
Qed.

Lemma passed_checks (p : publication) :
  passed (checks (checkBeforePublish cfg fl now db p)) =
    (if approvalRequired cfg && checkApproval fl db p
     then [passing 1 "approval_required"] else [])
    ++ (if negb (checkGracePeriod cfg now p) then [] else [passing 2 "grace_period"])
    ++ (if negb (checkTestGroup fl db p) then [] else [passing 3 "test_group"])
    ++ (if negb (checkRollbackCapability now p) && enableRollback cfg
        then [] else [passing 4 "rollback_capability"])
    ++ [passing 5 "member_data_encryption"; passing 6 "access_control";
        passing 7 "audit_logging"]
    ++ (if negb (truthy (unsubscribe_url p)) then [] else [passing 8 "gdpr_compliance"])
    ++ [passing 9 "data_retention"; passing 10 "privacy_by_design"]
    ++ (if checkRateLimit fl now db then [passing 11 "rate_limiting"] else [])
    ++ [passing 12 "graceful_degradation"; passing 13 "backup_systems";
        passing 14 "disaster_recovery"; passing 15 "health_monitoring";
        passing 16 "change_notifications"; passing 17 "service_health";
        passing 18 "anomaly_detection"; passing 19 "delivery_tracking"].
Proof.
  unfold checkBeforePublish. cbv zeta. cbn [checks].
  rewrite !passed_push_all, !passed_fail_or_pass.
  replace (passed checkMonitoring)
    with [passing 16 "change_notifications"; passing 17 "service_health";
          passing 18 "anomaly_detection"; passing 19 "delivery_tracking"]
    by reflexivity.
  replace (passed (checkOperationalSafety fl now db))
    with ((if checkRateLimit fl now db then [passing 11 "rate_limiting"] else [])
          ++ [passing 12 "graceful_degradation"; passing 13 "backup_systems";
              passing 14 "disaster_recovery"; passing 15 "health_monitoring"])
    by (unfold checkOperationalSafety; by destruct (checkRateLimit fl now db)).
  replace (passed (checkDataProtection p))
    with ([passing 5 "member_data_encryption"; passing 6 "access_control";
           passing 7 "audit_logging"]
          ++ (if negb (truthy (unsubscribe_url p)) then [] else [passing 8 "gdpr_compliance"])
          ++ [passing 9 "data_retention"; passing 10 "privacy_by_design"])
    by (unfold checkDataProtection; by destruct (truthy (unsubscribe_url p))).
  rewrite <- !app_assoc. f_equal.
  by destruct (approvalRequired cfg), (checkApproval fl db p).
Qed.

Lemma safe_no_failed (p : publication) :
  safe (checkBeforePublish cfg fl now db p) =
    match failed (checks (checkBeforePublish cfg fl now db p)) with
    | [] => true
    | _ :: _ => false
    end.
Proof.
  change (safe (checkBeforePublish cfg fl now db p))
    with (List.length (failed (checks (checkBeforePublish cfg fl now db p))) =? 0)%nat.
  by destruct (failed _).
Qed.

End Gate.

(** Whether a layer is listed, as a boolean expression over the conditions
    [checkBeforePublish] branches on. *)
Ltac layer_listing :=
  unfold layer_passed, layer_failed;
  rewrite ?failed_checks, ?passed_checks;
  rewrite ?existsb_app, ?existsb_optional, ?existsb_optional_not;
  cbn [existsb layer passing failing Nat.eqb];
  rewrite ?andb_false_r, ?andb_true_r, ?orb_false_r, ?orb_false_l.

Section GateLayers.
Variables (cfg : safety_config) (fl : faults) (now : Z) (db : database).

Lemma checkGracePeriod_once_due (p : publication) (s : Z) :
  0 < gracePeriodMinutes cfg → scheduled_for p = Some s → s ≤ now →
  checkGracePeriod cfg now p = false.
Proof.
  intros Hg Hs Hdue. unfold checkGracePeriod. rewrite Hs.
  apply Z.leb_gt. lia.
Qed.

Lemma layer2_follows_checkGracePeriod (p : publication) :
  layer_failed (checkBeforePublish cfg fl now db p) 2 = negb (checkGracePeriod cfg now p)
  ∧ layer_passed (checkBeforePublish cfg fl now db p) 2 = checkGracePeriod cfg now p.
Proof. split; layer_listing; [done | by rewrite negb_involutive]. Qed.

Lemma layer3_follows_checkTestGroup (p : publication) :
  layer_failed (checkBeforePublish cfg fl now db p) 3 = negb (checkTestGroup fl db p)
  ∧ layer_passed (checkBeforePublish cfg fl now db p) 3 = checkTestGroup fl db p.
Proof. split; layer_listing; [done | by rewrite negb_involutive]. Qed.

Lemma layer1_follows_checkApproval (p : publication) :
  layer_failed (checkBeforePublish cfg fl now db p) 1
    = approvalRequired cfg && negb (checkApproval fl db p)
  ∧ layer_passed (checkBeforePublish cfg fl now db p) 1
    = approvalRequired cfg && checkApproval fl db p.
Proof. split; by layer_listing. Qed.

Lemma layer11_follows_checkRateLimit (p : publication) :
  layer_failed (checkBeforePublish cfg fl now db p) 11 = negb (checkRateLimit fl now db)
  ∧ layer_passed (checkBeforePublish cfg fl now db p) 11 = checkRateLimit fl now db.
Proof. split; by layer_listing. Qed.

Lemma failed_layer_is_unsafe (p : publication) (l : nat) :
  layer_failed (checkBeforePublish cfg fl now db p) l = true →
  safe (checkBeforePublish cfg fl now db p) = false.
Proof.
  rewrite safe_no_failed. unfold layer_failed.
  destruct (failed _) as [|c cs]; [discriminate | reflexivity].
Qed.

Lemma gate_unsafe_once_due (p : publication) (s : Z) :
  0 < gracePeriodMinutes cfg → scheduled_for p = Some s → s ≤ now →
  safe (checkBeforePublish cfg fl now db p) = false.
Proof.
  intros Hg Hs Hdue. apply (failed_layer_is_unsafe p 2).
  rewrite (proj1 (layer2_follows_checkGracePeriod p)).
  by rewrite (checkGracePeriod_once_due p s).
Qed.

(** A row of the approval table satisfies the WHERE clause of the approval
    lookup exactly when it is an approved request for the draft. *)
Lemma is_approval_for_spec (draft : string) (r : approval_request) :
  is_approval_for draft r = true ↔
  related_entity_id r = draft ∧ request_type r = "guidance_publication"%string
  ∧ status r = "approved"%string.
Proof.
  unfold is_approval_for. rewrite !andb_true_iff, !String.eqb_eq. tauto.
Qed.

Lemma checkApproval_true (p : publication) :
  checkApproval fl db p = true ↔
  approval_lookup_fails fl = false
  ∧ ∃ r, recorded_approval db (guidance_draft_id p) r.
Proof.
  unfold checkApproval, query, select_approvals, recorded_approval.
  destruct (approval_lookup_fails fl).
  { split; [discriminate | intros [? _]; discriminate]. }
  destruct (List.filter _ _) as [|r rs] eqn:Hrows; cbn.
  - split; [discriminate |]. intros [_ [r [Hin Hr]]].
    assert (In r (List.filter (is_approval_for (guidance_draft_id p)) (approval_requests db)))
      as Hf by (apply filter_In; split; [done | by apply is_approval_for_spec]).
    rewrite Hrows in Hf. destruct Hf.
  - split; [| done]. intros _. split; [done |]. exists r.
    assert (In r (List.filter (is_approval_for (guidance_draft_id p)) (approval_requests db)))
      as Hf by (rewrite Hrows; by left).
    apply filter_In in Hf as [Hin Hr]. split; [done | by apply is_approval_for_spec].
Qed.

Lemma checkRateLimit_false :
  checkRateLimit fl now db = false ↔
  rate_limit_lookup_fails fl = false ∧ 1000 ≤ count_recent_sent db now.
Proof.
  unfold checkRateLimit, query, rate_ceiling.
  destruct (rate_limit_lookup_fails fl).
  - split; [discriminate | intros [? _]; discriminate].
  - rewrite Z.ltb_ge. tauto.
Qed.

(** The other checks do not read what the rate-limit lookup does. *)
Lemma other_checks_ignore_rate_limit_lookup (b : bool) (p : publication) :
  checkApproval (with_rate_limit_lookup b fl) db p = checkApproval fl db p
  ∧ checkTestGroup (with_rate_limit_lookup b fl) db p = checkTestGroup fl db p.
Proof. split; reflexivity. Qed.

Lemma other_layers_app (l : nat) (xs ys : list check) :
  other_layers l (xs ++ ys) = other_layers l xs ++ other_layers l ys.
Proof. apply List.filter_app. Qed.

End GateLayers.

(** ** What the rate-limit lookup counts *)

Section RecentSends.
Variable now : Z.

(** A row satisfies the WHERE clause of the count query exactly when it is a
    'sent' event of the trailing hour. *)
Lemma is_recent_sent_spec (e : delivery_event) :
  is_recent_sent now e = true ↔ sent_in_trailing_hour now e.
Proof.
  unfold is_recent_sent, sent_in_trailing_hour, one_hour.
  rewrite andb_true_iff, String.eqb_eq, Z.ltb_lt.
  by change (60 * 60 * 1000) with 3600000.
Qed.

Lemma filter_sublist {A : Type} (f : A → bool) (l : list A) :
  sublist (List.filter f l) l.
Proof.
  induction l as [| x l IH]; cbn; [constructor |]. destruct (f x); by constructor.
Qed.

Lemma sublist_filter_length {A : Type} (f : A → bool) (es l : list A) :
  sublist es l → Forall (λ e, f e = true) es →
  (List.length es ≤ List.length (List.filter f l))%nat.
Proof.
  induction 1 as [| x es l _ IH | x es l _ IH]; intros Hes; cbn.
  - lia.
  - inversion Hes as [| ? ? Hx Hes']; subst. rewrite Hx. cbn. specialize (IH Hes'). lia.
  - specialize (IH Hes). destruct (f x); cbn; lia.
Qed.

(** The number the query returns is the largest number of 'sent' events of
    the trailing hour that the table holds. *)
Lemma recent_sends_count (db : database) (n : nat) :
  recent_sends db now n ↔ Z.of_nat n ≤ count_recent_sent db now.
Proof.
  unfold recent_sends, count_recent_sent. split.
  - intros (es & Hsub & <- & Hall). apply Nat2Z.inj_le.
    apply sublist_filter_length; [done |].
    eapply Forall_impl; [exact Hall |]. intros e He. by apply is_recent_sent_spec.
  - intros Hn. exists (take n (List.filter (is_recent_sent now) (delivery_events db))).
    split_and!.
    + etrans; [apply sublist_take | apply filter_sublist].
    + rewrite length_take. lia.
    + apply Forall_take, Forall_forall.
      intros e He%list_elem_of_In%filter_In. apply is_recent_sent_spec, He.
Qed.

End RecentSends.

(** C8: the rate-limit check (layer 11) reports fail exactly when the count
    of 'sent' delivery events of the trailing hour, over all publications,
    is retrieved and is at least the ceiling of 1000, that is, when the
    lookup returns and the table holds 1000 rows of type 'sent' that
    occurred less than an hour before [now]; when the count lookup throws
    the check reports pass; and what the lookup does changes the result of
    no other layer. *)
Theorem rate_limit_fails_open (cfg : safety_config) (fl : faults) (now : Z)
    (db : database) (p : publication) :
  rate_ceiling = 1000
  ∧ (layer_failed (checkBeforePublish cfg fl now db p) 11 = true ↔
     rate_limit_lookup_fails fl = false ∧ 1000 ≤ count_recent_sent db now)
  ∧ layer_passed (checkBeforePublish cfg fl now db p) 11
    = negb (layer_failed (checkBeforePublish cfg fl now db p) 11)
  ∧ checkRateLimit (with_rate_limit_lookup true fl) now db = true
  ∧ layer_passed (checkBeforePublish cfg (with_rate_limit_lookup true fl) now db p) 11 = true
  ∧ (∀ b : bool,
      other_layers 11
        (passed (checks (checkBeforePublish cfg (with_rate_limit_lookup b fl) now db p)))
      = other_layers 11 (passed (checks (checkBeforePublish cfg fl now db p)))
      ∧ other_layers 11
          (failed (checks (checkBeforePublish cfg (with_rate_limit_lookup b fl) now db p)))
        = other_layers 11 (failed (checks (checkBeforePublish cfg fl now db p))))
  ∧ (layer_failed (checkBeforePublish cfg fl now db p) 11 = true ↔
     rate_limit_lookup_fails fl = false ∧ recent_sends db now 1000)
  ∧ (∀ n : nat, recent_sends db now n ↔ Z.of_nat n ≤ count_recent_sent db now).
Proof.
  assert (layer_failed (checkBeforePublish cfg fl now db p) 11 = true ↔
          rate_limit_lookup_fails fl = false ∧ 1000 ≤ count_recent_sent db now) as Hfail.
  { rewrite (proj1 (layer11_follows_checkRateLimit cfg fl now db p)), negb_true_iff.
    apply checkRateLimit_false. }
  split; [reflexivity |]. split; [exact Hfail |]. split.
  { rewrite (proj1 (layer11_follows_checkRateLimit cfg fl now db p)),
      (proj2 (layer11_follows_checkRateLimit cfg fl now db p)).
    by rewrite negb_involutive. }
  split; [reflexivity |]. split.
  { by rewrite (proj2 (layer11_follows_checkRateLimit cfg _ now db p)). }
  split; [| split].
  - intros b. split.
    + rewrite !passed_checks.
      rewrite !(proj1 (other_checks_ignore_rate_limit_lookup fl db b p)),
        !(proj2 (other_checks_ignore_rate_limit_lookup fl db b p)).
      rewrite !other_layers_app. do 7 f_equal.
      by destruct (checkRateLimit _ now db), (checkRateLimit fl now db).
    + rewrite !failed_checks.
      rewrite !(proj1 (other_checks_ignore_rate_limit_lookup fl db b p)),
        !(proj2 (other_checks_ignore_rate_limit_lookup fl db b p)).
      rewrite !other_layers_app. do 5 f_equal.
      by destruct (checkRateLimit _ now db), (checkRateLimit fl now db).
  - rewrite Hfail. by rewrite (recent_sends_count now db 1000).
  - intros n. apply recent_sends_count.
Qed.

(** C10: when the approval lookup throws, [checkApproval] answers false, so
    layer 1 is never listed as passed and, whenever approval is required, is
    listed as failed and the verdict is unsafe; under any environment layer
    1 is listed as passed only if the lookup returned and an approved request
    for the draft is recorded.  The rate-limit lookup, by contrast, answers
    true when it throws. *)
Theorem approval_lookup_fails_closed (cfg : safety_config) (fl : faults) (now : Z)
    (db : database) (p : publication) :
  checkApproval (with_approval_lookup true fl) db p = false
  ∧ layer_passed (checkBeforePublish cfg (with_approval_lookup true fl) now db p) 1 = false
  ∧ layer_failed (checkBeforePublish cfg (with_approval_lookup true fl) now db p) 1
    = approvalRequired cfg
  ∧ safe (checkBeforePublish cfg (with_approval_lookup true fl) now db p)
    && approvalRequired cfg = false
  ∧ (layer_passed (checkBeforePublish cfg fl now db p) 1 = true ↔
     approvalRequired cfg = true ∧ approval_lookup_fails fl = false
     ∧ ∃ r, recorded_approval db (guidance_draft_id p) r)
  ∧ checkRateLimit (with_rate_limit_lookup true fl) now db = true.
Proof.
  assert (checkApproval (with_approval_lookup true fl) db p = false) as Hclosed
    by reflexivity.
  assert (layer_failed (checkBeforePublish cfg (with_approval_lookup true fl) now db p) 1
          = approvalRequired cfg) as Hfailed.
  { rewrite (proj1 (layer1_follows_checkApproval cfg _ now db p)), Hclosed.
    apply andb_true_r. }
  split; [done |]. split.
  { rewrite (proj2 (layer1_follows_checkApproval cfg _ now db p)), Hclosed.
    apply andb_false_r. }
  split; [done |]. split.
  { destruct (approvalRequired cfg) eqn:Hreq; [| apply andb_false_r].
    rewrite andb_true_r. by apply (failed_layer_is_unsafe cfg _ now db p 1). }
  split; [| reflexivity].
  rewrite (proj2 (layer1_follows_checkApproval cfg fl now db p)), andb_true_iff.
  by rewrite checkApproval_true.
Qed.

(** ** The grace-period layer when the queue hands the job over *)

Section DueJobs.
Variables (cfg : safety_config) (fl : faults) (now : Z).

(** The job added by the schedule route becomes due at [scheduled_for]. *)
Lemma new_job_due_at_scheduled_for (t : Z) (id : string) (body : schedule_body) :
  due now (new_job t id body) = (body_scheduled_for body <=? now).
Proof. unfold due, new_job. cbn. f_equal. lia. Qed.

(** With a positive grace duration the handler, run at or after
    [scheduled_for], throws at the gate and leaves the store as it was. *)
Lemma processJob_once_due (j : job) (db : database) (p : publication) (s : Z) :
  0 < gracePeriodMinutes cfg →
  fetch_fails fl = false →
  guidance_publications db !! publicationId (data j) = Some p →
  scheduled_for p = Some s → s ≤ now →
  processJob cfg fl now j db
  = (Thrown (SafetyChecksFailed (failed (checks (checkBeforePublish cfg fl now db p)))), db).
Proof.
  intros Hg Hfetch Hrow Hs Hdue. unfold processJob.
  rewrite Hfetch, Hrow.
  by rewrite (gate_unsafe_once_due cfg fl now db p s).
Qed.

(** A job added by the schedule route is refused at the gate whenever the
    queue hands it over: layer 2 is among the failed checks and the store
    is left as the route made it. *)
Lemma scheduled_job_is_refused_when_due (fl' : faults) (t : Z) (id : string)
    (body : schedule_body) (db db' : database) (queue queue' : list job) (r : response) :
  0 < gracePeriodMinutes cfg →
  fetch_fails fl = false →
  schedule fl' t id body db queue = (r, db', queue') →
  queue' ≠ queue →
  last queue' = Some (new_job t id body)
  ∧ (due now (new_job t id body) = true →
     ∃ p, processJob cfg fl now (new_job t id body) db'
          = (Thrown (SafetyChecksFailed (failed (checks (checkBeforePublish cfg fl now db' p)))),
             db')
          ∧ layer_failed (checkBeforePublish cfg fl now db' p) 2 = true).
Proof.
  intros Hg Hfetch Hsched Hadded. unfold schedule in Hsched.
  destruct (insert_fails fl' 0); [congruence |].
  destruct (guidance_publications db !! id); [congruence |].
  destruct (queue_add_fails fl'); [congruence |].
  injection Hsched as <- <- <-. split; [apply last_snoc |].
  rewrite new_job_due_at_scheduled_for. intros Hdue%Z.leb_le.
  exists (new_publication t id body). split.
  - apply (processJob_once_due _ _ _ (body_scheduled_for body)); try done.
    cbn. apply lookup_insert_eq.
  - rewrite (proj1 (layer2_follows_checkGracePeriod cfg fl now _ _)).
    by rewrite (checkGracePeriod_once_due cfg now _ (body_scheduled_for body)).
Qed.

End DueJobs.

(** C1 (defect of the code): scenario A's publication, scheduled through the
    schedule route at [T0] for 10 minutes later with test mode on, an
    approval on record and a grace duration of 5 minutes, is refused when its
    job runs at the scheduled time: the job is due, the gate's verdict is
    unsafe and layer 2 is among the failed checks.  Layer 2 is the one failed
    check even on the same row with a true [test_mode], an unsubscribe URL
    and rollback not required. *)
Theorem scenario_A_gate_is_unsafe_at_scheduled_time :
  Scenario.system_A.(waiting) !! 0%nat
    = Some (new_job Scenario.T0 Scenario.test_id Scenario.body_A)
  ∧ due (Scenario.T0 + 10 * Scenario.minute)
        (new_job Scenario.T0 Scenario.test_id Scenario.body_A) = true
  ∧ (step Scenario.config_A no_faults (Scenario.T0 + 10 * Scenario.minute)
          (OpProcessJob 0) Scenario.system_A).1
    = JobRan (Thrown (SafetyChecksFailed
        [ failing 2 "grace_period" "Publication must respect grace period";
          failing 3 "test_group" "Test group delivery required first";
          failing 4 "rollback_capability" "Rollback must be available";
          failing 8 "gdpr_compliance" "Unsubscribe URL required" ]))
  ∧ checkGracePeriod Scenario.config_A (Scenario.T0 + 10 * Scenario.minute)
      Scenario.favourable_A = false
  ∧ checkBeforePublish Scenario.config_A_no_rollback no_faults
      (Scenario.T0 + 10 * Scenario.minute) Scenario.empty_store Scenario.favourable_A
    = {| safe := false;
         checks :=
           {| passed :=
                [ passing 1 "approval_required"; passing 3 "test_group";
                  passing 4 "rollback_capability"; passing 5 "member_data_encryption";
                  passing 6 "access_control"; passing 7 "audit_logging";
                  passing 8 "gdpr_compliance"; passing 9 "data_retention";
                  passing 10 "privacy_by_design"; passing 11 "rate_limiting";
                  passing 12 "graceful_degradation"; passing 13 "backup_systems";
                  passing 14 "disaster_recovery"; passing 15 "health_monitoring";
                  passing 16 "change_notifications"; passing 17 "service_health";
                  passing 18 "anomaly_detection"; passing 19 "delivery_tracking" ];
              failed :=
                [ failing 2 "grace_period" "Publication must respect grace period" ] |} |}.
Proof. repeat split; vm_compute; reflexivity. Qed.

(** ** The test-group layer and the schedule route *)

(** A row made by the schedule route never satisfies the test-group lookup,
    whatever the request's test flag and whatever is written back on
    delivery: its metadata has no [is_test] member. *)
Lemma scheduled_rows_are_never_tests (cfg : safety_config) (t now n : Z) (r : results)
    (id draft : string) (body : schedule_body) :
  is_published_test_of draft (new_publication t id body) = false
  ∧ is_published_test_of draft (mark_published cfg now r n (new_publication t id body)) = false.
Proof.
  unfold is_published_test_of, json_member_text. cbn [metadata new_publication mark_published].
  rewrite lookup_singleton_ne by done.
  by rewrite !andb_false_r.
Qed.

(** On a store none of whose rows has an [is_test] member in its metadata,
    as is every store filled through the schedule route, the test-group
    layer fails for every row that has no true [test_mode] property. *)
Lemma checkTestGroup_without_is_test (cfg : safety_config) (fl : faults) (now : Z)
    (db : database) (p : publication) :
  (∀ id q, guidance_publications db !! id = Some q →
           json_member_text (metadata q) "is_test" = None) →
  truthy (test_mode p) = false →
  checkTestGroup fl db p = false
  ∧ layer_failed (checkBeforePublish cfg fl now db p) 3 = true.
Proof.
  intros Hrows Hflag.
  assert (checkTestGroup fl db p = false) as Hcheck.
  { unfold checkTestGroup, query, select_published_tests. rewrite Hflag.
    destruct (test_group_lookup_fails fl); [done |].
    assert (∀ q, In q (List.map snd (map_to_list (guidance_publications db))) →
                 is_published_test_of (guidance_draft_id p) q = false) as Hnone.
    { intros q [[id q'] [<- Hin]]%in_map_iff.
      apply list_elem_of_In, elem_of_map_to_list in Hin.
      unfold is_published_test_of. cbn [snd]. rewrite (Hrows id q' Hin).
      by rewrite andb_false_r. }
    induction (List.map snd (map_to_list (guidance_publications db))) as [|q qs IH];
      [done |].
    cbn [List.filter]. rewrite (Hnone q) by (by left).
    apply IH. intros q' Hq'. apply Hnone. by right. }
  split; [exact Hcheck |].
  by rewrite (proj1 (layer3_follows_checkTestGroup cfg fl now db p)), Hcheck.
Qed.

(** C4 (defect of the code): a test-mode publication made through the
    schedule route with [test_mode = true] and then completed (its
    [published_at] written back) does not satisfy the test-group lookup, which
    looks for the metadata member [is_test] where the route wrote
    [test_mode]: a full publication of the same draft fails layer 3, and so
    does the test-mode publication itself, whose row has no [test_mode]
    property. *)
Theorem full_publication_after_completed_test_fails_test_group :
  published_at Scenario.completed_test = Some Scenario.T0
  ∧ metadata Scenario.completed_test = {[ "test_mode"%string := JBool true ]}
  ∧ guidance_draft_id Scenario.scheduled_full = guidance_draft_id Scenario.completed_test
  ∧ select_published_tests Scenario.store_after_test Scenario.draft = []
  ∧ checkTestGroup no_faults Scenario.store_after_test Scenario.scheduled_full = false
  ∧ checkTestGroup no_faults Scenario.store_after_test Scenario.completed_test = false
  ∧ layer_failed
      (checkBeforePublish Scenario.config_A no_faults (Scenario.T0 + 2 * Scenario.minute)
         Scenario.store_after_test Scenario.scheduled_full) 3 = true.
Proof. repeat split; vm_compute; reflexivity. Qed.

(** ** The digest of the recipient address *)

(** C7 (defect of the code): the declaration of [hashEmail] is not an async
    function and its body awaits the import of the crypto module, so the
    declaration is a syntax error in module code and the module that holds
    the job handler is rejected: no delivery event is ever recorded. *)
Theorem hashEmail_declaration_is_rejected :
  EarlyErrors.async EarlyErrors.hashEmail_declaration = false
  ∧ existsb EarlyErrors.statement_contains_await
      (EarlyErrors.body EarlyErrors.hashEmail_declaration) = true
  ∧ EarlyErrors.accepted EarlyErrors.hashEmail_declaration = false.
Proof. repeat split. Qed.

(** ** What the job handler writes *)

Section JobEffects.
Variables (cfg : safety_config) (fl : faults) (now : Z).

(** The INSERT loop appends the 'sent' events of a prefix of the recipients,
    of all of them when it runs to its end, and touches nothing else. *)
Lemma logEvents_effect (id : string) (tm : jsval) (rs : list recipient) :
  ∀ (i : nat) (db : database), ∃ k : nat,
    guidance_publications (logEvents fl now id tm i rs db).2 = guidance_publications db
    ∧ approval_requests (logEvents fl now id tm i rs db).2 = approval_requests db
    ∧ delivery_events (logEvents fl now id tm i rs db).2
      = delivery_events db ++ List.map (sent_event now id tm) (take k rs)
    ∧ ((logEvents fl now id tm i rs db).1 = true → take k rs = rs).
Proof.
  induction rs as [|r rest IH]; intros i db.
  - exists 0%nat. cbn. by rewrite app_nil_r.
  - cbn [logEvents]. destruct (insert_fails fl i).
    + exists 0%nat. cbn. rewrite app_nil_r. repeat split; done.
    + destruct (IH (S i) (insert_event (sent_event now id tm r) db))
        as (k & Hp & Ha & He & Hk).
      exists (S k). rewrite Hp, Ha, He. cbn.
      rewrite <- app_assoc. repeat split; try done.
      intros Hok. by rewrite (Hk Hok).
Qed.

(** One run of the handler either throws before the UPDATE and leaves the
    store as it was, or passes the gate, resolves the recipients, writes the
    delivery back on the row and appends 'sent' events for a prefix of the
    recipients, for all of them when it returns. *)
Lemma processJob_effect (j : job) (db : database) :
  ((processJob cfg fl now j db).2 = db ∧ ∃ e, (processJob cfg fl now j db).1 = Thrown e)
  ∨ ∃ (p : publication) (recipients : list recipient) (k : nat),
      guidance_publications db !! publicationId (data j) = Some p
      ∧ safe (checkBeforePublish cfg fl now db p) = true
      ∧ (if truthy (testMode (data j)) then Rows (testRecipients cfg)
         else getRecipients p) = Rows recipients
      ∧ guidance_publications (processJob cfg fl now j db).2
        = alter (mark_published cfg now (sendGuidance fl recipients)
                   (Z.of_nat (List.length recipients)))
            (publicationId (data j)) (guidance_publications db)
      ∧ approval_requests (processJob cfg fl now j db).2 = approval_requests db
      ∧ delivery_events (processJob cfg fl now j db).2
        = delivery_events db
          ++ List.map (sent_event now (publicationId (data j)) (testMode (data j)))
               (take k recipients)
      ∧ ∀ r, (processJob cfg fl now j db).1 = Returned r →
             take k recipients = recipients
             ∧ r = {| result_publicationId := publicationId (data j);
                      result_sent := sent (sendGuidance fl recipients);
                      result_failed := EmailService.failed (sendGuidance fl recipients);
                      result_total := Z.of_nat (List.length recipients) |}.
Proof.
  unfold processJob.
  destruct (fetch_fails fl); [left; eauto |].
  destruct (guidance_publications db !! publicationId (data j)) as [p|] eqn:Hrow;
    [| left; eauto].
  destruct (safe (checkBeforePublish cfg fl now db p)) eqn:Hsafe; cbn [negb];
    [| left; eauto].
  destruct (if truthy (testMode (data j)) then Rows (testRecipients cfg)
            else getRecipients p) as [recipients|] eqn:Hrs; [| left; eauto].
  destruct (update_fails fl); [left; eauto |].
  right. exists p, recipients.
  pose proof (logEvents_effect (publicationId (data j)) (testMode (data j)) recipients 0%nat
    (with_publications
       (alter (mark_published cfg now (sendGuidance fl recipients)
                 (Z.of_nat (List.length recipients))) (publicationId (data j))) db))
    as (k & Hp & Ha & He & Hk).
  exists k.
  destruct (logEvents _ _ _ _ _ _ _) as [[|] db'] eqn:Hlog; cbn [fst snd] in *.
  - rewrite Hp, Ha, He. split_and!; try done.
    intros r [= <-]. split; [by apply Hk | done].
  - rewrite Hp, Ha, He. split_and!; try done.
Qed.

End JobEffects.

(** ** How one operation changes the store *)

Section StoreEvolution.
Variables (cfg : safety_config) (fl : faults) (now : Z).

Lemma processNext_runs_processJob (i : nat) (sys : system) :
  processNext cfg fl now i sys = (NoJob, sys)
  ∨ ∃ j, waiting sys !! i = Some j ∧ due now j = true
         ∧ (processNext cfg fl now i sys).1 = JobRan (processJob cfg fl now j (store sys)).1
         ∧ store (processNext cfg fl now i sys).2 = (processJob cfg fl now j (store sys)).2.
Proof.
  unfold processNext.
  destruct (waiting sys !! i) as [j|] eqn:Hj; [| by left].
  destruct (due now j) eqn:Hdue; cbn [negb]; [| by left].
  right. exists j.
  destruct (processJob cfg fl now j (store sys)) as [[r|e] db'].
  - by cbn.
  - by destruct (S (attemptsMade j) <? attempts)%nat.
Qed.

(** The rows of the publication table after one run of the handler. *)
Lemma processJob_rows (j : job) (db : database) (id : string) :
  guidance_publications (processJob cfg fl now j db).2 !! id = guidance_publications db !! id
  ∨ ∃ p r n, guidance_publications db !! id = Some p
             ∧ guidance_publications (processJob cfg fl now j db).2 !! id
               = Some (mark_published cfg now r n p).
Proof.
  destruct (processJob_effect cfg fl now j db)
    as [[-> _] | (p & rs & k & Hrow & _ & _ & -> & _)]; [by left |].
  destruct (decide (publicationId (data j) = id)) as [<- | Hne].
  - right. exists p, (sendGuidance fl rs), (Z.of_nat (List.length rs)).
    by rewrite lookup_alter_eq, Hrow.
  - left. by rewrite lookup_alter_ne.
Qed.

(** After one operation a row that existed is the same row, or the row with
    a delivery written back, or the row marked as rolled back. *)
Lemma step_keeps_rows (op : operation) (sys : system) (id : string) (p : publication) :
  guidance_publications (store sys) !! id = Some p →
  ∃ p', guidance_publications (store (step cfg fl now op sys).2) !! id = Some p'
        ∧ (p' = p
           ∨ (∃ r n, p' = mark_published cfg now r n p)
           ∨ (∃ reason, p' = mark_rolled_back now reason p)).
Proof.
  intros Hrow. destruct op as [new body | rid reason | rid | rid | i]; cbn [step].
  - unfold schedule. destruct (insert_fails fl 0); [eauto |].
    destruct (guidance_publications (store sys) !! new) eqn:Hnew; [eauto |].
    assert (new ≠ id) by congruence.
    destruct (queue_add_fails fl); cbn; rewrite lookup_insert_ne by done; eauto.
  - unfold rollback. destruct (String.eqb reason ""); [eauto |].
    destruct (fetch_fails fl); [eauto |].
    destruct (guidance_publications (store sys) !! rid) as [q|] eqn:Hq; [| eauto].
    destruct (newDate (grace_period_ends_at q) <? now); [eauto |].
    destruct (update_fails fl); [eauto |]. cbn.
    destruct (decide (rid = id)) as [-> | Hne].
    + rewrite lookup_alter_eq, Hrow. cbn. eauto 6.
    + rewrite lookup_alter_ne by done. eauto.
  - eauto.
  - eauto.
  - destruct (processNext_runs_processJob i sys) as [-> | (j & _ & _ & _ & ->)]; [eauto |].
    destruct (processJob_rows j (store sys) id) as [-> | (q & r & n & Hq & ->)]; [eauto |].
    rewrite Hrow in Hq. injection Hq as <-. eauto 8.
Qed.

(** A row that appears with an operation is the one the schedule route
    inserts. *)
Lemma step_new_rows (op : operation) (sys : system) (id : string) (p' : publication) :
  guidance_publications (store sys) !! id = None →
  guidance_publications (store (step cfg fl now op sys).2) !! id = Some p' →
  ∃ body, p' = new_publication now id body.
Proof.
  intros Hnone. destruct op as [new body | rid reason | rid | rid | i]; cbn [step].
  - unfold schedule. destruct (insert_fails fl 0); [cbn; congruence |].
    destruct (guidance_publications (store sys) !! new) eqn:Hnew; [cbn; congruence |].
    destruct (decide (new = id)) as [-> | Hne].
    + destruct (queue_add_fails fl); cbn; rewrite lookup_insert_eq; intros [= <-]; eauto.
    + destruct (queue_add_fails fl); cbn; rewrite lookup_insert_ne by done; congruence.
  - unfold rollback. destruct (String.eqb reason ""); [cbn; congruence |].
    destruct (fetch_fails fl); [cbn; congruence |].
    destruct (guidance_publications (store sys) !! rid) as [q|] eqn:Hq; [| cbn; congruence].
    destruct (newDate (grace_period_ends_at q) <? now); [cbn; congruence |].
    destruct (update_fails fl); [cbn; congruence |]. cbn.
    destruct (decide (rid = id)) as [-> | Hne]; [congruence |].
    rewrite lookup_alter_ne by done. congruence.
  - cbn. congruence.
  - cbn. congruence.
  - destruct (processNext_runs_processJob i sys) as [-> | (j & _ & _ & _ & ->)];
      [cbn; congruence |].
    destruct (processJob_rows j (store sys) id) as [-> | (q & r & n & Hq & _)]; congruence.
Qed.

(** The delivery events after one operation are the earlier ones followed by
    'sent' events of one publication whose row has just been given its grace
    window. *)
Lemma step_new_events (op : operation) (sys : system) (e : delivery_event) :
  In e (delivery_events (store (step cfg fl now op sys).2)) →
  In e (delivery_events (store sys))
  ∨ ∃ p', guidance_publications (store (step cfg fl now op sys).2) !! publication_id e = Some p'
          ∧ grace_period_ends_at p' = Some (now + gracePeriodMinutes cfg * 60 * 1000).
Proof.
  destruct op as [new body | rid reason | rid | rid | i]; cbn [step].
  - unfold schedule. destruct (insert_fails fl 0); [by left |].
    destruct (guidance_publications (store sys) !! new); [by left |].
    destruct (queue_add_fails fl); by left.
  - unfold rollback. destruct (String.eqb reason ""); [by left |].
    destruct (fetch_fails fl); [by left |].
    destruct (guidance_publications (store sys) !! rid); [| by left].
    destruct (newDate _ <? now); [by left |].
    destruct (update_fails fl); by left.
  - by left.
  - by left.
  - destruct (processNext_runs_processJob i sys) as [-> | (j & _ & _ & _ & ->)]; [by left |].
    destruct (processJob_effect cfg fl now j (store sys))
      as [[-> _] | (p & rs & k & Hrow & _ & _ & Hp & _ & -> & _)]; [by left |].
    rewrite in_app_iff, in_map_iff. intros [Hold | (r & <- & _)]; [by left |].
    right. rewrite Hp. cbn [publication_id sent_event].
    rewrite lookup_alter_eq, Hrow. cbn. eauto.
Qed.

End StoreEvolution.

(** ** Rollback *)

Section RollbackRoute.
Variables (fl : faults) (now : Z) (id reason : string) (db : database).
Hypothesis reason_given : reason ≠ ""%string.
Hypothesis fetched : fetch_fails fl = false.

Lemma rollback_not_found :
  guidance_publications db !! id = None →
  rollback fl now id reason db = (NotFound, db).
Proof.
  intros Hrow. unfold rollback.
  rewrite (proj2 (String.eqb_neq _ _) reason_given), fetched. by rewrite Hrow.
Qed.

Lemma rollback_expired (p : publication) :
  guidance_publications db !! id = Some p →
  newDate (grace_period_ends_at p) < now →
  rollback fl now id reason db = (GracePeriodExpired (newDate (grace_period_ends_at p)), db).
Proof.
  intros Hrow Hlate. unfold rollback.
  rewrite (proj2 (String.eqb_neq _ _) reason_given), fetched, Hrow.
  by rewrite (proj2 (Z.ltb_lt _ _) Hlate).
Qed.

Lemma rollback_accepted (p : publication) :
  guidance_publications db !! id = Some p →
  now ≤ newDate (grace_period_ends_at p) →
  update_fails fl = false →
  rollback fl now id reason db
  = (RolledBack id, with_publications (insert id (mark_rolled_back now reason p)) db).
Proof.
  intros Hrow Hin Hupd. unfold rollback.
  rewrite (proj2 (String.eqb_neq _ _) reason_given), fetched, Hrow.
  rewrite (proj2 (Z.ltb_ge _ _) Hin), Hupd.
  unfold with_publications. by rewrite (alter_alt_Some _ _ _ _ Hrow).
Qed.

End RollbackRoute.

Section RollbackRequest.
Variables (isUUID : string → bool) (fl : faults) (now : Z) (id reason : string)
  (db : database).
Hypothesis admitted : isUUID id = true.

(** A request whose id the validator admits is answered by the handler on
    the uuid value of the id, with the id repeated as it came. *)
Lemma rollback_request_answer :
  rollback_request isUUID fl now id reason db
  = match rollback fl now (uuid_of id) reason db with
    | (RolledBack _, db') => (RolledBack id, db')
    | answer => answer
    end.
Proof. unfold rollback_request. by rewrite admitted. Qed.

End RollbackRequest.

(** C2 (as amended): a rollback request whose id the validator admits, a
    text of 8-4-4-4-12 hex digits read as a uuid value whatever the case of
    the digits, with a non-empty reason and whose row fetch returns, answers
    not-found when no publication has that id and window-expired when [now]
    is strictly after the publication's [grace_period_ends_at], leaving the
    store unchanged in both cases; when [now] is strictly before
    [grace_period_ends_at] and the UPDATE returns it succeeds, whether or
    not the publication was rolled back before, and the row gets
    [rolled_back_at = now], the given reason and [can_rollback = false].
    Two spellings of one id leave the same store. *)
Theorem rollback_outcomes (isUUID : string → bool) (fl : faults) (now : Z)
    (id reason : string) (db : database) :
  isUUID id = true → uuid_text id = true →
  reason ≠ ""%string → fetch_fails fl = false →
  match guidance_publications db !! uuid_of id with
  | None => rollback_request isUUID fl now id reason db = (NotFound, db)
  | Some p =>
      ∀ ends, grace_period_ends_at p = Some ends →
        (ends < now →
         rollback_request isUUID fl now id reason db = (GracePeriodExpired ends, db))
        ∧ (now < ends → update_fails fl = false →
           rollback_request isUUID fl now id reason db
           = (RolledBack id,
              with_publications (insert (uuid_of id) (mark_rolled_back now reason p)) db)
           ∧ rolled_back_at (mark_rolled_back now reason p) = Some now
           ∧ rollback_reason (mark_rolled_back now reason p) = Some reason
           ∧ can_rollback (mark_rolled_back now reason p) = false)
  end
  ∧ ∀ id', isUUID id' = true → uuid_of id' = uuid_of id →
      (rollback_request isUUID fl now id' reason db).2
      = (rollback_request isUUID fl now id reason db).2.
Proof.
  intros Hid _ Hreason Hfetch. split.
  - rewrite (rollback_request_answer isUUID fl now id reason db Hid).
    destruct (guidance_publications db !! uuid_of id) as [p|] eqn:Hrow.
    + intros ends Hends. split.
      * intros Hlate.
        rewrite (rollback_expired fl now (uuid_of id) reason db Hreason Hfetch p Hrow)
          by (by rewrite Hends).
        by rewrite Hends.
      * intros Hin Hupd.
        rewrite (rollback_accepted fl now (uuid_of id) reason db Hreason Hfetch p Hrow)
          by (rewrite ?Hends; cbn; done || lia).
        done.
    + by rewrite (rollback_not_found fl now (uuid_of id) reason db Hreason Hfetch Hrow).
  - intros id' Hid' Hsame.
    rewrite (rollback_request_answer isUUID fl now id reason db Hid),
      (rollback_request_answer isUUID fl now id' reason db Hid'), Hsame.
    by destruct (rollback fl now (uuid_of id) reason db) as [[] ?].
Qed.

(** At a publication that was rolled back a minute ago and whose window is
    open for three more minutes, requested with its id in capitals. *)
Lemma rollback_outcomes_witness :
  rollback_request uuid_text no_faults (Scenario.T0 + 2 * Scenario.minute)
    "F0000000-0000-4000-8000-00000000000F" "again" Scenario.rolled_back_store
  = (RolledBack "F0000000-0000-4000-8000-00000000000F",
     with_publications
       (insert Scenario.full_id
          (mark_rolled_back (Scenario.T0 + 2 * Scenario.minute) "again"
             Scenario.rolled_back_row))
       Scenario.rolled_back_store).
Proof.
  assert ("again"%string ≠ ""%string) as Hreason by discriminate.
  pose proof (proj1 (rollback_outcomes uuid_text no_faults
                       (Scenario.T0 + 2 * Scenario.minute)
                       "F0000000-0000-4000-8000-00000000000F" "again"
                       Scenario.rolled_back_store eq_refl eq_refl Hreason eq_refl)) as H.
  change (guidance_publications Scenario.rolled_back_store
            !! uuid_of "F0000000-0000-4000-8000-00000000000F")
    with (Some Scenario.rolled_back_row) in H.
  destruct (H (Scenario.T0 + 5 * Scenario.minute) eq_refl) as [_ H'].
  apply H'; reflexivity.
Defined.

(** C2 (as stated) fails: a publication already rolled back, inside its
    grace window, is rolled back again; the request succeeds and overwrites
    [rolled_back_at] and the reason. *)
Lemma rollback_of_rolled_back_publication_succeeds :
  guidance_publications Scenario.rolled_back_store !! Scenario.full_id
  = Some Scenario.rolled_back_row
  ∧ rolled_back_at Scenario.rolled_back_row = Some (Scenario.T0 + Scenario.minute)
  ∧ rollback_reason Scenario.rolled_back_row = Some "wrong draft"%string
  ∧ grace_period_ends_at Scenario.rolled_back_row = Some (Scenario.T0 + 5 * Scenario.minute)
  ∧ uuid_text Scenario.full_id = true
  ∧ (rollback_request uuid_text no_faults (Scenario.T0 + 2 * Scenario.minute)
       Scenario.full_id "again" Scenario.rolled_back_store).1
    = RolledBack Scenario.full_id
  ∧ guidance_publications
      (rollback_request uuid_text no_faults (Scenario.T0 + 2 * Scenario.minute)
         Scenario.full_id "again" Scenario.rolled_back_store).2 !! Scenario.full_id
    = Some (mark_rolled_back (Scenario.T0 + 2 * Scenario.minute) "again"
              Scenario.rolled_back_row)
  ∧ rolled_back_at
      (mark_rolled_back (Scenario.T0 + 2 * Scenario.minute) "again" Scenario.rolled_back_row)
    = Some (Scenario.T0 + 2 * Scenario.minute)
  ∧ rollback_reason
      (mark_rolled_back (Scenario.T0 + 2 * Scenario.minute) "again" Scenario.rolled_back_row)
    = Some "again"%string.
Proof. split_and!; vm_compute; reflexivity. Qed.

(** A rollback request for a publication that is still pending
    ([grace_period_ends_at] null), made at any instant after the epoch with a
    non-empty reason and with the row fetch returning, is answered with
    window-expired, the end reported being the epoch, and leaves the store,
    the waiting jobs and the failed jobs as they were; and no rollback
    request, accepted or refused, changes the queue. *)
Lemma rollback_of_pending_publication_is_refused (cfg : safety_config) (fl : faults)
    (now : Z) (id reason : string) (sys : system) (p : publication) :
  guidance_publications (store sys) !! id = Some p →
  grace_period_ends_at p = None →
  0 < now → reason ≠ ""%string → fetch_fails fl = false →
  step cfg fl now (OpRollback id reason) sys = (Http (GracePeriodExpired 0), sys)
  ∧ ∀ (fl' : faults) (now' : Z) (id' reason' : string) (sys' : system),
      waiting (step cfg fl' now' (OpRollback id' reason') sys').2 = waiting sys'
      ∧ failed_jobs (step cfg fl' now' (OpRollback id' reason') sys').2 = failed_jobs sys'.
Proof.
  intros Hrow Hpending Hnow Hreason Hfetch. split.
  - cbn [step].
    rewrite (rollback_expired fl now id reason (store sys) Hreason Hfetch p Hrow)
      by (rewrite Hpending; exact Hnow).
    rewrite Hpending. by destruct sys.
  - intros fl' now' id' reason' sys'. cbn [step].
    by destruct (rollback fl' now' id' reason' (store sys')).
Qed.

(** C6 (defect of the code): scenario A's publication is pending and its job
    waits for the scheduled time, nine minutes ahead; the rollback request is
    not accepted: the route reads the null [grace_period_ends_at] as the
    epoch and answers window-expired; the row is left as it was and the job
    keeps waiting, so the pending send is not cancelled. *)
Theorem rollback_before_scheduled_time_is_refused :
  guidance_publications (store Scenario.system_A) !! Scenario.test_id
  = Some (new_publication Scenario.T0 Scenario.test_id Scenario.body_A)
  ∧ grace_period_ends_at (new_publication Scenario.T0 Scenario.test_id Scenario.body_A) = None
  ∧ (Scenario.T0 + Scenario.minute <? Scenario.T0 + 10 * Scenario.minute) = true
  ∧ scheduled_for (new_publication Scenario.T0 Scenario.test_id Scenario.body_A)
    = Some (Scenario.T0 + 10 * Scenario.minute)
  ∧ (step Scenario.config_A no_faults (Scenario.T0 + Scenario.minute)
       (OpRollback Scenario.test_id "typo in the summary") Scenario.system_A).1
    = Http (GracePeriodExpired 0)
  ∧ waiting
      (step Scenario.config_A no_faults (Scenario.T0 + Scenario.minute)
         (OpRollback Scenario.test_id "typo in the summary") Scenario.system_A).2
    = [new_job Scenario.T0 Scenario.test_id Scenario.body_A]
  ∧ guidance_publications
      (store (step Scenario.config_A no_faults (Scenario.T0 + Scenario.minute)
                (OpRollback Scenario.test_id "typo in the summary") Scenario.system_A).2)
      !! Scenario.test_id
    = Some (new_publication Scenario.T0 Scenario.test_id Scenario.body_A).
Proof. split_and!; vm_compute; reflexivity. Qed.

(** ** Invariants of the publication table *)

(** C9: every operation of the service (schedule, rollback, status query,
    safety check, one run of the delivery job) keeps the invariant that a
    row with [rolled_back_at] set has [can_rollback = false]; no operation
    sets [can_rollback] of an existing row back to true; and an accepted
    rollback writes [rolled_back_at = now] and [can_rollback = false] on the
    row in one update. *)
Theorem rolled_back_stays_locked (cfg : safety_config) (fl : faults) (now : Z)
    (op : operation) (sys : system) :
  rolled_back_is_locked (store sys) →
  rolled_back_is_locked (store (step cfg fl now op sys).2)
  ∧ (∀ id p, guidance_publications (store sys) !! id = Some p → can_rollback p = false →
       ∃ p', guidance_publications (store (step cfg fl now op sys).2) !! id = Some p'
             ∧ can_rollback p' = false)
  ∧ (∀ id reason, op = OpRollback id reason →
       (step cfg fl now op sys).1 = Http (RolledBack id) →
       ∃ p, guidance_publications (store sys) !! id = Some p
            ∧ guidance_publications (store (step cfg fl now op sys).2) !! id
              = Some (mark_rolled_back now reason p)
            ∧ rolled_back_at (mark_rolled_back now reason p) = Some now
            ∧ can_rollback (mark_rolled_back now reason p) = false).
Proof.
  intros Hinv. split_and!.
  - intros id p' Hrow' Hrb.
    destruct (guidance_publications (store sys) !! id) as [p|] eqn:Hrow.
    + destruct (step_keeps_rows cfg fl now op sys id p Hrow)
        as (q & Hq & [-> | [(r & n & ->) | (reason & ->)]]);
        rewrite Hq in Hrow'; injection Hrow' as <-.
      * by apply (Hinv id).
      * cbn in *. by apply (Hinv id).
      * reflexivity.
    + destruct (step_new_rows cfg fl now op sys id p' Hrow Hrow') as [body ->].
      by destruct Hrb.
  - intros id p Hrow Hlocked.
    destruct (step_keeps_rows cfg fl now op sys id p Hrow)
      as (q & Hq & [-> | [(r & n & ->) | (reason & ->)]]); eauto.
  - intros id reason -> Hreply. cbn [step] in *. unfold rollback in *.
    destruct (String.eqb reason ""); [discriminate |].
    destruct (fetch_fails fl); [discriminate |].
    destruct (guidance_publications (store sys) !! id) as [p|] eqn:Hrow; [| discriminate].
    destruct (newDate (grace_period_ends_at p) <? now); [discriminate |].
    destruct (update_fails fl); [discriminate |].
    exists p. cbn. rewrite lookup_alter_eq, Hrow. by cbn.
Qed.

(** On a store with a rolled-back row, rolling back the other row inside
    its window. *)
Lemma rolled_back_stays_locked_witness :
  rolled_back_is_locked Scenario.mixed_store
  ∧ rolled_back_is_locked
      (store (step Scenario.config_A no_faults (Scenario.T0 - 58 * Scenario.minute)
                (OpRollback Scenario.test_id "superseded") Scenario.mixed_system).2)
  ∧ (step Scenario.config_A no_faults (Scenario.T0 - 58 * Scenario.minute)
       (OpRollback Scenario.test_id "superseded") Scenario.mixed_system).1
    = Http (RolledBack Scenario.test_id).
Proof.
  assert (rolled_back_is_locked Scenario.mixed_store) as Hinv.
  { intros id p Hrow Hrb. unfold Scenario.mixed_store in Hrow. cbn in Hrow.
    apply lookup_insert_Some in Hrow as [[_ <-] | [_ Hrow]]; [by destruct Hrb |].
    apply lookup_singleton_Some in Hrow as [_ <-]. reflexivity. }
  split; [exact Hinv |]. split.
  - exact (proj1 (rolled_back_stays_locked Scenario.config_A no_faults
                    (Scenario.T0 - 58 * Scenario.minute)
                    (OpRollback Scenario.test_id "superseded") Scenario.mixed_system Hinv)).
  - vm_compute. reflexivity.
Defined.

(** ** The store of schema.sql *)

Section SchemaRows.
Variables (cfg : safety_config) (fl : faults) (now : Z).




End SchemaRows.



(** ** Partial failure of a batch *)

(** C5 (defect of the code): with three recipients and the second send
    throwing, [sendGuidance] goes on and reports 2 sent and 1 failed with one
    error naming the second recipient, but the rows the handler's loop builds
    for the three recipients all have type 'sent', the one of the failed
    recipient included, and none has type 'failed'.  On the store of
    schema.sql the delivery is not even attempted: the job of the full
    publication, handed over at the scheduled time with the approval and the
    delivered test on record, throws at the gate; it records no event and
    opens no grace window; and the recipients of a segment are selected from
    a relation the schema does not declare. *)
Theorem scenario_C_records_no_failed_event :
  sendGuidance Scenario.second_send_fails Scenario.three_recipients
  = {| sent := 2; EmailService.failed := 1;
       errors := [{| error_email := "bob@example.org";
                     error_message := "Connection refused" |}] |}
  ∧ List.map event_type
      (List.map (sent_event (Scenario.T0 + 60 * Scenario.minute) Scenario.full_id
                   (JBool false))
         Scenario.three_recipients)
    = ["sent"; "sent"; "sent"]%string
  ∧ getRecipients Scenario.scheduled_full = Threw
  ∧ Scenario.delivered_system.(waiting) !! 0%nat
    = Some (new_job (Scenario.T0 + Scenario.minute) Scenario.full_id Scenario.body_full)
  ∧ due (Scenario.T0 + 60 * Scenario.minute)
        (new_job (Scenario.T0 + Scenario.minute) Scenario.full_id Scenario.body_full) = true
  ∧ step Scenario.config_A Scenario.second_send_fails (Scenario.T0 + 60 * Scenario.minute)
      (OpProcessJob 0) Scenario.delivered_system
    = (JobRan (Thrown (SafetyChecksFailed
         [ failing 2 "grace_period" "Publication must respect grace period";
           failing 4 "rollback_capability" "Rollback must be available";
           failing 8 "gdpr_compliance" "Unsubscribe URL required" ])),
       {| store := Scenario.delivered_store;
          waiting := [retry (Scenario.T0 + 60 * Scenario.minute)
                        (new_job (Scenario.T0 + Scenario.minute) Scenario.full_id
                           Scenario.body_full)];
          failed_jobs := [] |})
  ∧ List.filter (λ e, String.eqb (publication_id e) Scenario.full_id)
      (delivery_events Scenario.delivered_store) = []
  ∧ grace_period_ends_at <$> guidance_publications Scenario.delivered_store !! Scenario.full_id
    = Some None.
Proof. split_and!; vm_compute; reflexivity. Qed.

(** * Further properties of the delivery executor and the recipient sets *)

Import TestEmail Config Further.

Section SendLoops.
Variable fl : faults.

(** The error the [k]-th call leaves behind for a recipient, if it throws. *)
Lemma sendLoop_accounting (rs : list recipient) :
  ∀ (i : nat) (acc : results),
    errors (sendLoop fl i rs acc)
    = errors acc
      ++ omap id (imap (λ k rc, (λ msg, {| error_email := email rc; error_message := msg |})
                                  <$> transport_error fl (i + k)) rs)
    ∧ EmailService.failed (sendLoop fl i rs acc)
      = EmailService.failed acc
        + Z.of_nat (List.length (errors (sendLoop fl i rs acc)))
        - Z.of_nat (List.length (errors acc))
    ∧ sent (sendLoop fl i rs acc) + EmailService.failed (sendLoop fl i rs acc)
      = sent acc + EmailService.failed acc + Z.of_nat (List.length rs).
Proof.
  induction rs as [|r rest IH]; intros i acc.
  - cbn. rewrite app_nil_r. split_and!; [done | lia | lia].
  - cbn [sendLoop]. destruct (IH (S i) (attempt fl i r acc)) as (He & Hf & Hs).
    assert (errors (sendLoop fl (S i) rest (attempt fl i r acc))
            = errors acc
              ++ omap id (imap (λ k rc, (λ msg, {| error_email := email rc;
                                                   error_message := msg |})
                                          <$> transport_error fl (i + k)) (r :: rest))) as He'.
    { rewrite He. cbn [imap omap]. rewrite Nat.add_0_r.
      rewrite (imap_ext
                 ((λ k rc, (λ msg, {| error_email := email rc; error_message := msg |})
                             <$> transport_error fl (i + k)) ∘ S)
                 (λ k rc, (λ msg, {| error_email := email rc; error_message := msg |})
                            <$> transport_error fl (S i + k)))
        by (intros k rc _; cbn; by rewrite Nat.add_succ_r).
      unfold attempt. destruct (transport_error fl i) as [msg|]; cbn; [| done].
      by rewrite <- app_assoc. }
    split; [exact He' |].
    unfold attempt in Hf, Hs |- *. destruct (transport_error fl i) as [msg|];
      cbn in Hf, Hs; rewrite ?length_app in Hf; cbn in Hf; cbn [List.length]; lia.
Qed.

(** Under one transport the successes of a test send and the errors of a
    real send to the same addresses add up to the number of addresses. *)
Lemma successes_and_errors (rs : list recipient) :
  ∀ i : nat,
    (List.length (List.filter success
       (imap (λ k e, {| test_email := e;
                        success := bool_decide (transport_error fl (i + k) = None);
                        test_error := transport_error fl (i + k) |})
             (List.map email rs)))
     + List.length
         (omap id (imap (λ k rc, (λ msg, {| error_email := email rc; error_message := msg |})
                                   <$> transport_error fl (i + k)) rs))
     = List.length rs)%nat.
Proof.
  induction rs as [|r rest IH]; intros i; [done |].
  cbn [List.map imap omap List.filter success]. rewrite Nat.add_0_r.
  rewrite (imap_ext _ (λ k e, {| test_email := e;
                                 success := bool_decide (transport_error fl (S i + k) = None);
                                 test_error := transport_error fl (S i + k) |}))
    by (intros k e _; cbn; by rewrite Nat.add_succ_r).
  rewrite (imap_ext (_ ∘ S) (λ k rc,
             (λ msg, {| error_email := email rc; error_message := msg |})
               <$> transport_error fl (S i + k)))
    by (intros k rc _; cbn; by rewrite Nat.add_succ_r).
  specialize (IH (S i)).
  destruct (transport_error fl i) as [msg|];
    [rewrite bool_decide_eq_false_2 by done | rewrite bool_decide_eq_true_2 by done];
    unfold omap in *; simpl in *; lia.
Qed.

Lemma sendTestLoop_results (emails : list string) :
  ∀ (i : nat) (acc : list test_result),
    sendTestLoop fl i emails acc
    = acc ++ imap (λ k e, {| test_email := e;
                             success := bool_decide (transport_error fl (i + k) = None);
                             test_error := transport_error fl (i + k) |}) emails.
Proof.
  induction emails as [|e rest IH]; intros i acc.
  - cbn. by rewrite app_nil_r.
  - cbn [sendTestLoop imap]. rewrite IH, Nat.add_0_r.
    rewrite (imap_ext
               ((λ k e0, {| test_email := e0;
                            success := bool_decide (transport_error fl (i + k) = None);
                            test_error := transport_error fl (i + k) |}) ∘ S)
               (λ k e0, {| test_email := e0;
                           success := bool_decide (transport_error fl (S i + k) = None);
                           test_error := transport_error fl (S i + k) |}))
      by (intros k e0 _; cbn; by rewrite Nat.add_succ_r).
    unfold attemptTest. destruct (transport_error fl i) as [msg|]; by rewrite <- app_assoc.
Qed.

End SendLoops.

(** X1: [sendGuidance] accounts for every recipient: the sent and failed
    counts are non-negative and add up to the number of recipients, the
    failed count is the number of recorded errors, and the errors are, in
    order, the addresses of exactly the recipients whose [sendMail] call
    threw, each with the message thrown. *)
Theorem sendGuidance_accounts_for_every_recipient (fl : faults) (rs : list recipient) :
  sent (sendGuidance fl rs) + EmailService.failed (sendGuidance fl rs)
  = Z.of_nat (List.length rs)
  ∧ 0 ≤ sent (sendGuidance fl rs)
  ∧ EmailService.failed (sendGuidance fl rs)
    = Z.of_nat (List.length (errors (sendGuidance fl rs)))
  ∧ errors (sendGuidance fl rs)
    = omap id (imap (λ k rc, (λ msg, {| error_email := email rc; error_message := msg |})
                               <$> transport_error fl k) rs).
Proof.
  destruct (sendLoop_accounting fl rs 0 {| sent := 0; EmailService.failed := 0; errors := [] |})
    as (He & Hf & Hs).
  cbn in He, Hf, Hs. fold (sendGuidance fl rs) in He, Hf, Hs.
  assert (List.length (errors (sendGuidance fl rs)) ≤ List.length rs)%nat as Hle.
  { rewrite He. pose proof (successes_and_errors fl rs 0) as Hadd.
    cbn [Nat.add] in Hadd. lia. }
  split_and!; [lia | lia | lia | exact He].
Qed.

(** X2: [sendTestEmail] returns one result per test address, in order and
    never aborting: the result at position [i] carries the [i]-th address,
    succeeds exactly when the [i]-th [sendMail] call returns, and holds the
    message thrown otherwise; on the addresses of a recipient list it counts
    as many successes as [sendGuidance] counts sent. *)
Theorem sendTestEmail_reports_every_address (fl : faults) (emails : list string)
    (rs : list recipient) :
  List.map test_email (sendTestEmail fl emails) = emails
  ∧ (∀ i res, sendTestEmail fl emails !! i = Some res →
       emails !! i = Some (test_email res)
       ∧ test_error res = transport_error fl i
       ∧ (success res = true ↔ transport_error fl i = None))
  ∧ Z.of_nat (List.length (List.filter success (sendTestEmail fl (List.map email rs))))
    = sent (sendGuidance fl rs).
Proof.
  unfold sendTestEmail. split_and!.
  - rewrite sendTestLoop_results. cbn [app]. clear rs.
    generalize 0%nat. induction emails as [|e rest IH]; intros n; [done |].
    cbn [imap List.map test_email]. f_equal.
    rewrite <- (IH (S n)) at 2. f_equal. apply imap_ext. intros k e0 _. cbn.
    by rewrite Nat.add_succ_r.
  - intros i res. rewrite sendTestLoop_results. cbn [app]. rewrite list_lookup_imap.
    destruct (emails !! i) as [e|]; [| discriminate]. cbn. intros [= <-]. cbn.
    split_and!; [done | done |]. by rewrite bool_decide_eq_true.
  - destruct (sendGuidance_accounts_for_every_recipient fl rs) as (Hsum & _ & Hf & He).
    rewrite sendTestLoop_results. cbn [app Nat.add].
    pose proof (successes_and_errors fl rs 0) as Hadd. cbn [Nat.add] in Hadd.
    rewrite <- He in Hadd. lia.
Qed.

(** X3: the test recipients are the configured test addresses, one
    recipient per address and in the same order; the recipient at position
    [i] has the id [test-i], and no two test recipients share an id. *)
Theorem testRecipients_follow_the_configured_addresses (cfg : safety_config) :
  List.map email (testRecipients cfg) = testGroupEmails cfg
  ∧ (∀ i, testRecipients cfg !! i
          = (λ e, {| recipient_id := "test-" +:+ pretty i; email := e |})
              <$> testGroupEmails cfg !! i)
  ∧ NoDup (List.map recipient_id (testRecipients cfg)).
Proof.
  unfold testRecipients. split_and!.
  - generalize (testGroupEmails cfg). intros emails.
    change (λ i e, {| recipient_id := "test-" +:+ pretty i; email := e |})
      with (λ i e, {| recipient_id := "test-" +:+ pretty (0 + i)%nat; email := e |}).
    generalize 0%nat. induction emails as [|e rest IH]; intros n; [done |].
    cbn [imap List.map email]. f_equal.
    rewrite <- (IH (S n)) at 2. f_equal. apply imap_ext. intros k e0 _. cbn.
    by rewrite Nat.add_succ_r.
  - intros i. by rewrite list_lookup_imap.
  - apply NoDup_alt. intros i j x.
    change (List.map recipient_id ?l) with (recipient_id <$> l).
    rewrite !list_lookup_fmap, !list_lookup_imap.
    destruct (testGroupEmails cfg !! i) as [e|]; [| discriminate].
    destruct (testGroupEmails cfg !! j) as [e'|]; [| discriminate].
    cbn. intros [= <-] [= Heq]. by apply (inj pretty).
Qed.

(** * Further properties of the safety gate *)

Section GateShape.
Variables (cfg : safety_config) (fl : faults) (now : Z) (db : database) (p : publication).

Lemma count_layer_app (l : nat) (xs ys : list check) :
  count_layer l (xs ++ ys) = (count_layer l xs + count_layer l ys)%nat.
Proof. unfold count_layer. by rewrite List.filter_app, length_app. Qed.

(** A check that is pushed on one list or on the other counts once for its
    layer. *)
Lemma count_layer_either (l k : nat) (b : bool) (n m : string) :
  (count_layer l (if b then [] else [passing k n])
   + count_layer l (if b then [failing k n m] else []))%nat
  = if (k =? l)%nat then 1%nat else 0%nat.
Proof. unfold count_layer. destruct b; cbn; by destruct (k =? l)%nat. Qed.

Lemma count_layer_rate (l k : nat) (b : bool) (n m : string) :
  (count_layer l (if b then [passing k n] else [])
   + count_layer l (if b then [] else [failing k n m]))%nat
  = if (k =? l)%nat then 1%nat else 0%nat.
Proof. unfold count_layer. destruct b; cbn; by destruct (k =? l)%nat. Qed.

Lemma count_layer_approval (l k : nat) (n m : string) :
  (count_layer l (if approvalRequired cfg && checkApproval fl db p
                  then [passing k n] else [])
   + count_layer l (if approvalRequired cfg && negb (checkApproval fl db p)
                    then [failing k n m] else []))%nat
  = if (k =? l)%nat && approvalRequired cfg then 1%nat else 0%nat.
Proof.
  unfold count_layer.
  destruct (approvalRequired cfg), (checkApproval fl db p); cbn;
    rewrite ?andb_true_r, ?andb_false_r; by destruct (k =? l)%nat.
Qed.

Lemma count_layer_one (l k : nat) (n : string) :
  count_layer l [passing k n] = if (k =? l)%nat then 1%nat else 0%nat.
Proof. unfold count_layer. cbn. by destruct (k =? l)%nat. Qed.

End GateShape.

(** X5: the verdict of [checkBeforePublish] lists every layer from 2 to 19
    exactly once, as passed or as failed, and layer 1 exactly once when
    approval is required and not at all otherwise; it lists no other layer,
    so it holds 19 checks when approval is required and 18 when not. *)
Theorem every_layer_is_reported_once (cfg : safety_config) (fl : faults) (now : Z)
    (db : database) (p : publication) (l : nat) :
  (count_layer l (passed (checks (checkBeforePublish cfg fl now db p)))
   + count_layer l (failed (checks (checkBeforePublish cfg fl now db p))))%nat
  = (if reported cfg l then 1%nat else 0%nat)
  ∧ (List.length (passed (checks (checkBeforePublish cfg fl now db p)))
     + List.length (failed (checks (checkBeforePublish cfg fl now db p))))%nat
    = (if approvalRequired cfg then 19%nat else 18%nat).
Proof.
  rewrite passed_checks, failed_checks. split.
  - rewrite !count_layer_app.
    pose proof (count_layer_approval cfg fl db p l 1 "approval_required"
                  "Publication requires human approval") as H1.
    pose proof (count_layer_either l 2 (negb (checkGracePeriod cfg now p))
                  "grace_period" "Publication must respect grace period") as H2.
    pose proof (count_layer_either l 3 (negb (checkTestGroup fl db p))
                  "test_group" "Test group delivery required first") as H3.
    pose proof (count_layer_either l 4
                  (negb (checkRollbackCapability now p) && enableRollback cfg)
                  "rollback_capability" "Rollback must be available") as H4.
    pose proof (count_layer_either l 8 (negb (truthy (unsubscribe_url p)))
                  "gdpr_compliance" "Unsubscribe URL required") as H8.
    pose proof (count_layer_rate l 11 (checkRateLimit fl now db)
                  "rate_limiting" "Rate limit exceeded") as H11.
    change [passing 5 "member_data_encryption"; passing 6 "access_control";
            passing 7 "audit_logging"]
      with ([passing 5 "member_data_encryption"] ++ [passing 6 "access_control"]
            ++ [passing 7 "audit_logging"]).
    change [passing 9 "data_retention"; passing 10 "privacy_by_design"]
      with ([passing 9 "data_retention"] ++ [passing 10 "privacy_by_design"]).
    change [passing 12 "graceful_degradation"; passing 13 "backup_systems";
            passing 14 "disaster_recovery"; passing 15 "health_monitoring";
            passing 16 "change_notifications"; passing 17 "service_health";
            passing 18 "anomaly_detection"; passing 19 "delivery_tracking"]
      with ([passing 12 "graceful_degradation"] ++ [passing 13 "backup_systems"]
            ++ [passing 14 "disaster_recovery"] ++ [passing 15 "health_monitoring"]
            ++ [passing 16 "change_notifications"] ++ [passing 17 "service_health"]
            ++ [passing 18 "anomaly_detection"] ++ [passing 19 "delivery_tracking"]).
    rewrite !count_layer_app, !count_layer_one.
    unfold reported.
    do 20 (destruct l as [|l]; [cbn in *; destruct (approvalRequired cfg); cbn in *; lia |]).
    cbn in *. lia.
  - rewrite !length_app.
    destruct (approvalRequired cfg), (checkApproval fl db p), (checkGracePeriod cfg now p),
      (checkTestGroup fl db p), (negb (checkRollbackCapability now p) && enableRollback cfg),
      (truthy (unsubscribe_url p)), (checkRateLimit fl now db); reflexivity.
Qed.

(** X6: the aggregate verdict is safe exactly when approval is on record or
    not required, the grace-period and test-group checks hold, rollback is
    available or not required, the row has an unsubscribe URL and the rate
    limit check holds. *)
Theorem safe_exactly_when_every_condition_holds (cfg : safety_config) (fl : faults)
    (now : Z) (db : database) (p : publication) :
  safe (checkBeforePublish cfg fl now db p)
  = (negb (approvalRequired cfg) || checkApproval fl db p)
    && checkGracePeriod cfg now p
    && checkTestGroup fl db p
    && (negb (enableRollback cfg) || checkRollbackCapability now p)
    && truthy (unsubscribe_url p)
    && checkRateLimit fl now db.
Proof.
  rewrite safe_no_failed, failed_checks.
  destruct (approvalRequired cfg), (checkApproval fl db p), (checkGracePeriod cfg now p),
    (checkTestGroup fl db p), (checkRollbackCapability now p), (enableRollback cfg),
    (truthy (unsubscribe_url p)), (checkRateLimit fl now db); reflexivity.
Qed.

(** X7: a publication whose row has no unsubscribe URL fails layer 8, so
    its job throws at the gate whenever it runs, under every configuration,
    and leaves the store as it was.  Every row the schedule route inserts is
    such a row, and it stays one when a delivery or a rollback is written on
    it. *)
Theorem rows_without_unsubscribe_url_are_never_delivered (cfg : safety_config)
    (fl : faults) (now : Z) (j : job) (db : database) (p : publication) :
  fetch_fails fl = false →
  guidance_publications db !! publicationId (data j) = Some p →
  truthy (unsubscribe_url p) = false →
  layer_failed (checkBeforePublish cfg fl now db p) 8 = true
  ∧ processJob cfg fl now j db
    = (Thrown (SafetyChecksFailed (failed (checks (checkBeforePublish cfg fl now db p)))), db)
  ∧ ∀ (t t' n : Z) (id reason : string) (body : schedule_body) (r : results),
      truthy (unsubscribe_url (new_publication t id body)) = false
      ∧ unsubscribe_url (mark_published cfg t' r n p) = unsubscribe_url p
      ∧ unsubscribe_url (mark_rolled_back t' reason p) = unsubscribe_url p.
Proof.
  intros Hfetch Hrow Hurl.
  assert (layer_failed (checkBeforePublish cfg fl now db p) 8 = true) as H8
    by (layer_listing; by rewrite Hurl).
  split_and!; [exact H8 | | done].
  unfold processJob. rewrite Hfetch, Hrow.
  by rewrite (failed_layer_is_unsafe cfg fl now db p 8 H8).
Qed.

(** At scenario A's publication, ten minutes before it is due. *)
Lemma rows_without_unsubscribe_url_witness :
  processJob Scenario.config_A no_faults Scenario.T0
    (new_job Scenario.T0 Scenario.test_id Scenario.body_A) (store Scenario.system_A)
  = (Thrown (SafetyChecksFailed
       (failed (checks (checkBeforePublish Scenario.config_A no_faults Scenario.T0
                          (store Scenario.system_A)
                          (new_publication Scenario.T0 Scenario.test_id Scenario.body_A))))),
     store Scenario.system_A).
Proof.
  refine (proj1 (proj2 (rows_without_unsubscribe_url_are_never_delivered
    Scenario.config_A no_faults Scenario.T0
    (new_job Scenario.T0 Scenario.test_id Scenario.body_A) (store Scenario.system_A)
    (new_publication Scenario.T0 Scenario.test_id Scenario.body_A) eq_refl _ eq_refl))).
  vm_compute. reflexivity.
Defined.

(** * Further properties of rollback and delivery together *)

Section RollbackAndDelivery.
Variables (cfg : safety_config) (fl : faults) (now : Z).

Lemma filter_length_Permutation {A : Type} (f : A → bool) (xs ys : list A) :
  Permutation xs ys →
  List.length (List.filter f xs) = List.length (List.filter f ys).
Proof.
  induction 1 as [| x xs ys _ IH | x y xs | xs ys zs _ IH1 _ IH2]; cbn.
  - done.
  - destruct (f x); cbn; by rewrite IH.
  - by destruct (f x), (f y).
  - by rewrite IH1.
Qed.

(** Replacing a row by a row that the test-group lookup cannot tell from it
    leaves the number of rows the lookup finds as it was. *)
Lemma select_published_tests_with_row (db : database) (id draft : string)
    (p p' : publication) :
  guidance_publications db !! id = Some p →
  is_published_test_of draft p' = is_published_test_of draft p →
  List.length (select_published_tests (with_row id p' db) draft)
  = List.length (select_published_tests db draft).
Proof.
  intros Hrow Hsame. unfold select_published_tests, with_row, with_publications.
  cbn [guidance_publications].
  rewrite <- (insert_delete_id (guidance_publications db) id p Hrow) at 2.
  rewrite <- (insert_delete_eq (guidance_publications db) id p').
  rewrite (filter_length_Permutation _ _ _
             (Permutation_map snd
                (map_to_list_insert (delete id (guidance_publications db)) id p'
                   (lookup_delete_eq _ _)))).
  rewrite (filter_length_Permutation _ _ _
             (Permutation_map snd
                (map_to_list_insert (delete id (guidance_publications db)) id p
                   (lookup_delete_eq _ _)))).
  cbn. rewrite Hsame. by destruct (is_published_test_of draft p).
Qed.

(** The gate reads neither [rolled_back_at] nor [rollback_reason] nor
    [can_rollback], of the row it is given or of any other row. *)
Lemma gate_ignores_rollback (db : database) (id reason : string) (t : Z)
    (p q q' : publication) :
  guidance_publications db !! id = Some p →
  q' = q ∨ q' = mark_rolled_back t reason q →
  checkBeforePublish cfg fl now (with_row id (mark_rolled_back t reason p) db) q'
  = checkBeforePublish cfg fl now db q.
Proof.
  intros Hrow Hq.
  assert (checkTestGroup fl (with_row id (mark_rolled_back t reason p) db) q'
          = checkTestGroup fl db q) as Ht.
  { unfold checkTestGroup, query.
    replace (test_mode q') with (test_mode q) by (by destruct Hq as [-> | ->]).
    replace (guidance_draft_id q') with (guidance_draft_id q)
      by (by destruct Hq as [-> | ->]).
    destruct (truthy (test_mode q)); [done |].
    destruct (test_group_lookup_fails fl); [done |].
    by rewrite (select_published_tests_with_row db id (guidance_draft_id q) p
                  (mark_rolled_back t reason p) Hrow eq_refl). }
  assert (checkApproval fl (with_row id (mark_rolled_back t reason p) db) q'
          = checkApproval fl db q) as Ha by (by destruct Hq as [-> | ->]).
  assert (checkGracePeriod cfg now q' = checkGracePeriod cfg now q) as Hg
    by (by destruct Hq as [-> | ->]).
  assert (checkRollbackCapability now q' = checkRollbackCapability now q) as Hr
    by (by destruct Hq as [-> | ->]).
  assert (unsubscribe_url q' = unsubscribe_url q) as Hu by (by destruct Hq as [-> | ->]).
  unfold checkBeforePublish, checkDataProtection.
  rewrite Ht, Ha, Hg, Hr, Hu. reflexivity.
Qed.

(** The INSERT loop's verdict and the events it leaves depend on the events
    it starts from only. *)
Lemma logEvents_congruence (id : string) (tm : jsval) (rs : list recipient) :
  ∀ (i : nat) (db db' : database),
    delivery_events db' = delivery_events db →
    (logEvents fl now id tm i rs db').1 = (logEvents fl now id tm i rs db).1
    ∧ delivery_events (logEvents fl now id tm i rs db').2
      = delivery_events (logEvents fl now id tm i rs db).2.
Proof.
  induction rs as [|r rest IH]; intros i db db' Hev; [done |].
  cbn [logEvents]. destruct (insert_fails fl i); [done |].
  apply IH. cbn. by rewrite Hev.
Qed.

End RollbackAndDelivery.

(** X8: a rollback does not stop a delivery.  On a store in which any
    publication has been marked as rolled back, every job, of that
    publication or of another, has the same outcome, reports the same counts
    and leaves the same delivery events as on the store without the mark:
    the handler and the gate never read [rolled_back_at], [rollback_reason]
    or [can_rollback]. *)
Theorem rollback_does_not_stop_delivery (cfg : safety_config) (fl : faults) (now t : Z)
    (j : job) (db : database) (id reason : string) (p : publication) :
  guidance_publications db !! id = Some p →
  (processJob cfg fl now j (with_row id (mark_rolled_back t reason p) db)).1
  = (processJob cfg fl now j db).1
  ∧ delivery_events (processJob cfg fl now j (with_row id (mark_rolled_back t reason p) db)).2
    = delivery_events (processJob cfg fl now j db).2.
Proof.
  intros Hrow. unfold processJob.
  destruct (fetch_fails fl); [done |].
  assert (∃ oq oq', guidance_publications db !! publicationId (data j) = oq
                    ∧ guidance_publications (with_row id (mark_rolled_back t reason p) db)
                        !! publicationId (data j) = oq'
                    ∧ match oq, oq' with
                      | Some q, Some q' => q' = q ∨ q' = mark_rolled_back t reason q
                      | None, None => True
                      | _, _ => False
                      end) as (oq & oq' & -> & -> & Hq).
  { eexists _, _. split_and!; [done | done |]. cbn.
    destruct (decide (id = publicationId (data j))) as [<- | Hne].
    - rewrite lookup_insert_eq, Hrow. by right.
    - rewrite lookup_insert_ne by done.
      destruct (guidance_publications db !! publicationId (data j)); [by left | done]. }
  destruct oq as [q|], oq' as [q'|]; try done.
  rewrite (gate_ignores_rollback cfg fl now db id reason t p q q' Hrow Hq).
  destruct (safe (checkBeforePublish cfg fl now db q)); cbn [negb]; [| done].
  assert (getRecipients q' = getRecipients q) as -> by (by destruct Hq as [-> | ->]).
  destruct (if truthy (testMode (data j)) then Rows (testRecipients cfg)
            else getRecipients q) as [rs|]; [| done].
  destruct (update_fails fl); [done |].
  match goal with
  | |- context [logEvents _ _ _ _ _ _ (with_publications ?f (with_row ?a ?b ?c))] =>
      pose proof (logEvents_congruence fl now (publicationId (data j)) (testMode (data j))
                    rs 0%nat (with_publications f db)
                    (with_publications f (with_row a b c)) eq_refl) as [Hok Hev];
      destruct (logEvents fl now (publicationId (data j)) (testMode (data j)) 0%nat rs
                  (with_publications f (with_row a b c))) as [okA dA];
      destruct (logEvents fl now (publicationId (data j)) (testMode (data j)) 0%nat rs
                  (with_publications f db)) as [okB dB]
  end.
  cbn [fst snd] in Hok, Hev. subst okA. by destruct okB.
Qed.

(** At the full publication of [Scenario] when its job is handed over, with
    the delivered test publication of the same draft marked as rolled back
    in the meantime. *)
Lemma rollback_does_not_stop_delivery_witness :
  (processJob Scenario.config_A no_faults (Scenario.T0 + 60 * Scenario.minute)
     (new_job (Scenario.T0 + Scenario.minute) Scenario.full_id Scenario.body_full)
     (with_row Scenario.test_id
        (mark_rolled_back (Scenario.T0 - 57 * Scenario.minute) "withdrawn"
           Scenario.is_test_row)
        Scenario.delivered_store)).1
  = (processJob Scenario.config_A no_faults (Scenario.T0 + 60 * Scenario.minute)
       (new_job (Scenario.T0 + Scenario.minute) Scenario.full_id Scenario.body_full)
       Scenario.delivered_store).1.
Proof.
  refine (proj1 (rollback_does_not_stop_delivery Scenario.config_A no_faults
    (Scenario.T0 + 60 * Scenario.minute) (Scenario.T0 - 57 * Scenario.minute)
    (new_job (Scenario.T0 + Scenario.minute) Scenario.full_id Scenario.body_full)
    Scenario.delivered_store Scenario.test_id "withdrawn" Scenario.is_test_row _)).
  vm_compute. reflexivity.
Defined.

(** X10: a rollback request, whatever its answer and whatever the spelling
    of its id, recalls nothing: the delivery events and the approvals stay as
    they were, no publication is created or removed, every other publication
    stays as it was, and on the publication itself the schedule, the
    delivery counts, [published_at], the grace window and the metadata stay
    as they were. *)
Theorem rollback_leaves_delivery_data_alone (isUUID : string → bool) (fl : faults)
    (now : Z) (id reason : string) (db : database) :
  delivery_events (rollback_request isUUID fl now id reason db).2 = delivery_events db
  ∧ approval_requests (rollback_request isUUID fl now id reason db).2
    = approval_requests db
  ∧ (∀ id', id' ≠ uuid_of id →
       guidance_publications (rollback_request isUUID fl now id reason db).2 !! id'
       = guidance_publications db !! id')
  ∧ match guidance_publications db !! uuid_of id with
    | None =>
        guidance_publications (rollback_request isUUID fl now id reason db).2 !! uuid_of id
        = None
    | Some p =>
        ∃ p', guidance_publications (rollback_request isUUID fl now id reason db).2
                !! uuid_of id = Some p'
              ∧ scheduled_for p' = scheduled_for p
              ∧ published_at p' = published_at p
              ∧ grace_period_ends_at p' = grace_period_ends_at p
              ∧ recipients_count p' = recipients_count p
              ∧ successful_deliveries p' = successful_deliveries p
              ∧ failed_deliveries p' = failed_deliveries p
              ∧ metadata p' = metadata p
    end.
Proof.
  assert (rollback_request isUUID fl now id reason db = (ValidationErrors, db)
          ∨ ((rollback fl now (uuid_of id) reason db).2 = db
             ∧ (rollback_request isUUID fl now id reason db).2 = db)
          ∨ ∃ p, guidance_publications db !! uuid_of id = Some p
                 ∧ (rollback_request isUUID fl now id reason db).2
                   = with_publications (alter (mark_rolled_back now reason) (uuid_of id)) db)
    as Hcases.
  { unfold rollback_request. destruct (isUUID id); cbn [negb]; [| by left].
    right. unfold rollback. destruct (String.eqb reason ""); [by left |].
    destruct (fetch_fails fl); [by left |].
    destruct (guidance_publications db !! uuid_of id) as [p|] eqn:Hrow; [| by left].
    destruct (newDate (grace_period_ends_at p) <? now); [by left |].
    destruct (update_fails fl); [by left |]. right. by exists p. }
  destruct Hcases as [-> | [[_ ->] | (p & Hrow & ->)]]; cbn.
  - split_and!; try done. destruct (guidance_publications db !! uuid_of id); eauto 10.
  - split_and!; try done. destruct (guidance_publications db !! uuid_of id); eauto 10.
  - split_and!; try done.
    + intros id' Hne. by rewrite lookup_alter_ne.
    + rewrite Hrow, lookup_alter_eq, Hrow. cbn. eauto 10.
Qed.

(** * Further properties of the job handler *)

(** X13: the safety-check route predicts the job.  With the row fetch
    returning, when the route answers not-found the job throws not-found;
    when the route's verdict is unsafe the job, run in the same environment at
    the same instant, throws with exactly the verdict's failed checks and
    changes nothing; when the verdict is safe the job passes the gate. *)
Theorem safety_check_route_predicts_the_job (cfg : safety_config) (fl : faults) (now : Z)
    (j : job) (db : database) :
  fetch_fails fl = false →
  match safetyCheck cfg fl now (publicationId (data j)) db with
  | NotFound =>
      processJob cfg fl now j db = (Thrown (PublicationNotFound (publicationId (data j))), db)
  | SafetyVerdict v =>
      if safe v
      then (processJob cfg fl now j db).1 = Thrown QueryFailed
           ∨ ∃ r, (processJob cfg fl now j db).1 = Returned r
      else processJob cfg fl now j db
           = (Thrown (SafetyChecksFailed (failed (checks v))), db)
  | _ => False
  end.
Proof.
  intros Hfetch. unfold safetyCheck, processJob. rewrite Hfetch.
  destruct (guidance_publications db !! publicationId (data j)) as [p|]; [| done].
  destruct (safe (checkBeforePublish cfg fl now db p)); cbn [negb]; [| done].
  destruct (if truthy (testMode (data j)) then Rows (testRecipients cfg)
            else getRecipients p) as [rs|]; [| by left].
  destruct (update_fails fl); [by left |].
  destruct (logEvents _ _ _ _ _ _ _) as [[|] d]; cbn; eauto.
Qed.

(** At scenario A's publication, at its scheduled time. *)
Lemma safety_check_route_predicts_the_job_witness :
  processJob Scenario.config_A no_faults (Scenario.T0 + 10 * Scenario.minute)
    (new_job Scenario.T0 Scenario.test_id Scenario.body_A) (store Scenario.system_A)
  = (Thrown (SafetyChecksFailed
       (failed (checks (checkBeforePublish Scenario.config_A no_faults
                          (Scenario.T0 + 10 * Scenario.minute) (store Scenario.system_A)
                          (new_publication Scenario.T0 Scenario.test_id Scenario.body_A))))),
     store Scenario.system_A).
Proof.
  pose proof (safety_check_route_predicts_the_job Scenario.config_A no_faults
                (Scenario.T0 + 10 * Scenario.minute)
                (new_job Scenario.T0 Scenario.test_id Scenario.body_A)
                (store Scenario.system_A) eq_refl) as H.
  assert (safetyCheck Scenario.config_A no_faults (Scenario.T0 + 10 * Scenario.minute)
            (publicationId (data (new_job Scenario.T0 Scenario.test_id Scenario.body_A)))
            (store Scenario.system_A)
          = SafetyVerdict
              (checkBeforePublish Scenario.config_A no_faults
                 (Scenario.T0 + 10 * Scenario.minute) (store Scenario.system_A)
                 (new_publication Scenario.T0 Scenario.test_id Scenario.body_A))) as Hroute
    by (vm_compute; reflexivity).
  rewrite Hroute in H.
  assert (safe (checkBeforePublish Scenario.config_A no_faults
                  (Scenario.T0 + 10 * Scenario.minute) (store Scenario.system_A)
                  (new_publication Scenario.T0 Scenario.test_id Scenario.body_A)) = false)
    as Hunsafe by (vm_compute; reflexivity).
  rewrite Hunsafe in H. exact H.
Defined.

(** X14: with rollback required, as it is by default, a publication that
    has never been delivered ([grace_period_ends_at] null) fails layer 4 at
    every instant from the epoch on, so its job throws at the gate and
    leaves the store as it was; layer 4 passes exactly when rollback is not
    required or [now] is strictly before the end of the grace window. *)
Theorem undelivered_publication_fails_rollback_capability (cfg : safety_config)
    (fl : faults) (now : Z) (j : job) (db : database) (p : publication) :
  fetch_fails fl = false →
  guidance_publications db !! publicationId (data j) = Some p →
  enableRollback cfg = true → grace_period_ends_at p = None → 0 ≤ now →
  layer_failed (checkBeforePublish cfg fl now db p) 4 = true
  ∧ processJob cfg fl now j db
    = (Thrown (SafetyChecksFailed (failed (checks (checkBeforePublish cfg fl now db p)))), db)
  ∧ ∀ (cfg' : safety_config) (now' : Z) (q : publication),
      layer_passed (checkBeforePublish cfg' fl now' db q) 4 = true ↔
      enableRollback cfg' = false ∨ now' < newDate (grace_period_ends_at q).
Proof.
  intros Hfetch Hrow Hreq Hnone Hnow.
  assert (checkRollbackCapability now p = false) as Hcap
    by (unfold checkRollbackCapability; rewrite Hnone; apply Z.ltb_ge; exact Hnow).
  assert (layer_failed (checkBeforePublish cfg fl now db p) 4 = true) as H4
    by (layer_listing; by rewrite Hcap, Hreq).
  split_and!; [exact H4 | |].
  - unfold processJob. rewrite Hfetch, Hrow.
    by rewrite (failed_layer_is_unsafe cfg fl now db p 4 H4).
  - intros cfg' now' q. layer_listing. unfold checkRollbackCapability.
    destruct (enableRollback cfg'), (Z.ltb_spec now' (newDate (grace_period_ends_at q)));
      cbn; split; try done; try (intros [? | ?]; done || lia); auto.
Qed.

(** At the full publication of [Scenario], ten minutes before its scheduled
    time, with rollback required. *)
Lemma undelivered_publication_witness :
  layer_failed
    (checkBeforePublish Scenario.config_A no_faults (Scenario.T0 + 50 * Scenario.minute)
       Scenario.delivered_store Scenario.scheduled_full) 4 = true.
Proof.
  refine (proj1 (undelivered_publication_fails_rollback_capability Scenario.config_A
    no_faults (Scenario.T0 + 50 * Scenario.minute)
    (new_job (Scenario.T0 + Scenario.minute) Scenario.full_id Scenario.body_full)
    Scenario.delivered_store Scenario.scheduled_full eq_refl _ eq_refl eq_refl _)).
  - vm_compute. reflexivity.
  - vm_compute. discriminate.
Defined.

(** * Further properties of the routes *)

(** X16: a schedule request that is answered with success has inserted
    exactly one row, under a key that was free, and queued exactly one job,
    which becomes due at [scheduled_for]; the answer repeats the id, the
    schedule and the raw test flag; every other publication, the delivery
    events and the approvals are as before; the status route reads the new
    publication back as scheduled, unpublished, with no grace window and
    rollback-enabled; and the job runs in test mode exactly when the raw
    flag of the request is truthy, as the texts 'false' and '0' are. *)
Theorem scheduled_publication_is_read_back (fl fl' : faults) (now : Z) (id id' : string)
    (body : schedule_body) (db db' : database) (queue queue' : list job)
    (sf : option Z) (tm : jsval) :
  schedule fl now id body db queue = (Scheduled id' sf tm, db', queue') →
  id' = id ∧ sf = Some (body_scheduled_for body) ∧ tm = or_false (body_test_mode body)
  ∧ guidance_publications db !! id = None
  ∧ guidance_publications db' !! id = Some (new_publication now id body)
  ∧ (∀ i, i ≠ id → guidance_publications db' !! i = guidance_publications db !! i)
  ∧ delivery_events db' = delivery_events db
  ∧ approval_requests db' = approval_requests db
  ∧ queue' = queue ++ [new_job now id body]
  ∧ (∀ t, due t (new_job now id body) = (body_scheduled_for body <=? t))
  ∧ (fetch_fails fl' = false → events_lookup_fails fl' = false →
     getPublication fl' id db'
     = PublicationStatus
         {| status_id := id;
            status_scheduled_for := Some (body_scheduled_for body);
            status_published_at := None;
            status_recipients_count := 0;
            status_successful_deliveries := 0;
            status_failed_deliveries := 0;
            status_can_rollback := true;
            status_grace_period_ends_at := None;
            status_rolled_back_at := None;
            status_events := count_events db id |})
  ∧ truthy (testMode (data (new_job now id body)))
    = match body_test_mode body with Some v => truthy v | None => false end
  ∧ (body_test_mode body = Some (JStr "false") →
     testMode (data (new_job now id body)) = JStr "false"
     ∧ truthy (testMode (data (new_job now id body))) = true).
Proof.
  unfold schedule. destruct (insert_fails fl 0); [discriminate |].
  destruct (guidance_publications db !! id) eqn:Hfree; [discriminate |].
  destruct (queue_add_fails fl); [discriminate |].
  intros [= <- <- <- <- <-]. split_and!; try done.
  - cbn. apply lookup_insert_eq.
  - intros i Hne. cbn. by rewrite lookup_insert_ne.
  - intros t. apply new_job_due_at_scheduled_for.
  - intros Hf He. unfold getPublication. rewrite Hf. cbn [guidance_publications
      with_publications]. rewrite lookup_insert_eq, He. reflexivity.
  - cbn. unfold or_false. destruct (body_test_mode body) as [v|]; [| done].
    by destruct (truthy v) eqn:Hv.
  - intros Hraw. cbn. by rewrite Hraw.
Qed.

(** At scenario A's request on the store that holds the approval only. *)
Lemma scheduled_publication_is_read_back_witness :
  guidance_publications (store Scenario.system_A) !! Scenario.test_id
  = Some (new_publication Scenario.T0 Scenario.test_id Scenario.body_A).
Proof.
  refine (proj1 (proj2 (proj2 (proj2 (proj2
    (scheduled_publication_is_read_back no_faults no_faults Scenario.T0 Scenario.test_id
       Scenario.test_id Scenario.body_A Scenario.empty_store (store Scenario.system_A) []
       (waiting Scenario.system_A) (Some (Scenario.T0 + 10 * Scenario.minute))
       (JBool true) _)))))).
  vm_compute. reflexivity.
Defined.

(** X17: an error answer of the schedule route does not mean that nothing
    was written.  The queue is left as it was, and the store is left as it
    was unless it was the queue that threw: then the new row has been
    inserted and stays, with no job that would deliver it. *)
Theorem failed_schedule_may_leave_a_row (fl : faults) (now : Z) (id : string)
    (body : schedule_body) (db db' : database) (queue queue' : list job) (e : string) :
  schedule fl now id body db queue = (InternalError e, db', queue') →
  queue' = queue
  ∧ (queue_add_fails fl = false → db' = db)
  ∧ (db' = db
     ∨ queue_add_fails fl = true
       ∧ guidance_publications db !! id = None
       ∧ db' = with_row id (new_publication now id body) db
       ∧ guidance_publications db' !! id = Some (new_publication now id body)).
Proof.
  unfold schedule. destruct (insert_fails fl 0); [intros [= <- <- <-]; auto |].
  destruct (guidance_publications db !! id) eqn:Hfree; [intros [= <- <- <-]; auto |].
  destruct (queue_add_fails fl); [| discriminate].
  intros [= <- <- <-]. split_and!; [done | done |]. right.
  split_and!; try done. cbn. apply lookup_insert_eq.
Qed.

(** At scenario A's request while the queue cannot be reached. *)
Lemma failed_schedule_may_leave_a_row_witness :
  (step Scenario.config_A Cases.queue_down Scenario.T0
     (OpSchedule Scenario.test_id Scenario.body_A) Scenario.system_0).1
  = Http (InternalError "Failed to schedule publication")
  ∧ waiting
      (step Scenario.config_A Cases.queue_down Scenario.T0
         (OpSchedule Scenario.test_id Scenario.body_A) Scenario.system_0).2 = []
  ∧ guidance_publications
      (store (step Scenario.config_A Cases.queue_down Scenario.T0
                (OpSchedule Scenario.test_id Scenario.body_A) Scenario.system_0).2)
      !! Scenario.test_id
    = Some (new_publication Scenario.T0 Scenario.test_id Scenario.body_A).
Proof.
  split; [vm_compute; reflexivity |]. split; [vm_compute; reflexivity |].
  destruct (failed_schedule_may_leave_a_row Cases.queue_down Scenario.T0 Scenario.test_id
              Scenario.body_A Scenario.empty_store
              (with_row Scenario.test_id
                 (new_publication Scenario.T0 Scenario.test_id Scenario.body_A)
                 Scenario.empty_store)
              [] [] "Failed to schedule publication" eq_refl)
    as (_ & _ & [Hsame | (_ & _ & _ & Hrow)]).
  - vm_compute. reflexivity.
  - exact Hrow.
Defined.

Section EventCounts.
Variable id : string.

(** The step of the loop that builds the [events] object of the status
    answer. *)
Lemma count_events_fold (ty : string) (l : list delivery_event) :
  ∀ acc : gmap string Z,
    let counted :=
      foldl (λ events e,
               if String.eqb (publication_id e) id
               then <[ event_type e := default 0 (events !! event_type e) + 1 ]> events
               else events) acc l in
    let n := List.length
               (List.filter (λ e, String.eqb (publication_id e) id
                                  && String.eqb (event_type e) ty) l) in
    default 0 (counted !! ty) = default 0 (acc !! ty) + Z.of_nat n
    ∧ (counted !! ty = None ↔ acc !! ty = None ∧ n = 0%nat).
Proof.
  induction l as [|e rest IH]; intros acc.
  - cbn. split; [lia | tauto].
  - cbn [foldl List.filter]. cbv zeta in IH |- *.
    destruct (String.eqb (publication_id e) id); cbn [andb].
    + destruct (String.eqb_spec (event_type e) ty) as [-> | Hne].
      * destruct (IH (<[ ty := default 0 (acc !! ty) + 1 ]> acc)) as [Hv Hn].
        rewrite Hv, Hn, lookup_insert_eq. simpl.
        split; [lia |]. split; [intros [[=] _] | intros [_ [=]]].
      * destruct (IH (<[ event_type e := default 0 (acc !! event_type e) + 1 ]> acc))
          as [Hv Hn].
        rewrite Hv, Hn, lookup_insert_ne by done. done.
    + apply IH.
Qed.

End EventCounts.

(** X18: the [events] object of a status answer holds, for every event
    type, the number of delivery events of that type recorded for the
    publication, and holds no entry for a type without events; the other
    fields are the row's columns as stored. *)
Theorem status_counts_the_recorded_events (fl : faults) (id : string) (db : database)
    (s : publication_status) :
  getPublication fl id db = PublicationStatus s →
  (∀ ty, status_events s !! ty
         = if (List.length (events_of db id ty) =? 0)%nat then None
           else Some (Z.of_nat (List.length (events_of db id ty))))
  ∧ ∃ p, guidance_publications db !! id = Some p
         ∧ status_published_at s = published_at p
         ∧ status_grace_period_ends_at s = grace_period_ends_at p
         ∧ status_can_rollback s = can_rollback p
         ∧ status_rolled_back_at s = rolled_back_at p
         ∧ status_recipients_count s = recipients_count p
         ∧ status_successful_deliveries s = successful_deliveries p
         ∧ status_failed_deliveries s = failed_deliveries p.
Proof.
  unfold getPublication. destruct (fetch_fails fl); [discriminate |].
  destruct (guidance_publications db !! id) as [p|]; [| discriminate].
  destruct (events_lookup_fails fl); [discriminate |].
  intros [= <-]. cbn. split; [| eauto 10].
  intros ty. pose proof (count_events_fold id ty (delivery_events db) ∅) as [Hv Hn].
  cbv zeta in Hv, Hn. fold (count_events db id) in Hv, Hn.
  rewrite lookup_empty in Hv, Hn. simpl in Hv. unfold events_of.
  destruct (count_events db id !! ty) as [n|] eqn:Hc; simpl in Hv.
  - destruct (Nat.eqb_spec (List.length (List.filter
        (λ e, String.eqb (publication_id e) id && String.eqb (event_type e) ty)
        (delivery_events db))) 0) as [Hz | Hnz].
    + exact (proj2 Hn (conj eq_refl Hz)).
    + f_equal. lia.
  - destruct (proj1 Hn eq_refl) as [_ ->]. reflexivity.
Qed.

(** At the delivered test publication of [Scenario], which has one 'sent'
    event on record. *)
Lemma status_counts_the_recorded_events_witness :
  status_events Cases.status_after_delivery !! "sent"%string
  = if (List.length (events_of Scenario.delivered_store Scenario.test_id "sent") =? 0)%nat
    then None
    else Some (Z.of_nat
                 (List.length (events_of Scenario.delivered_store Scenario.test_id "sent"))).
Proof.
  refine (proj1 (status_counts_the_recorded_events no_faults Scenario.test_id
                   Scenario.delivered_store Cases.status_after_delivery _) "sent"%string).
  vm_compute. reflexivity.
Defined.

(** * Further invariants of the publication table *)

(** X19: [can_rollback] is cleared by a rollback and by nothing else: every
    operation keeps the invariant that a row with [can_rollback = false] has
    [rolled_back_at] set.  The flag does not follow the grace window: a row
    that was not rolled back is reported by the status route with
    [can_rollback = true], whatever its [grace_period_ends_at]. *)
Theorem can_rollback_is_cleared_only_by_rollback (cfg : safety_config) (fl fl' : faults)
    (now : Z) (op : operation) (sys : system) :
  locked_only_by_rollback (store sys) →
  locked_only_by_rollback (store (step cfg fl now op sys).2)
  ∧ (fetch_fails fl' = false → events_lookup_fails fl' = false →
     ∀ id p', guidance_publications (store (step cfg fl now op sys).2) !! id = Some p' →
       rolled_back_at p' = None →
       ∃ s, getPublication fl' id (store (step cfg fl now op sys).2) = PublicationStatus s
            ∧ status_can_rollback s = true
            ∧ status_grace_period_ends_at s = grace_period_ends_at p').
Proof.
  intros Hinv.
  assert (locked_only_by_rollback (store (step cfg fl now op sys).2)) as Hinv'.
  { intros id p' Hrow' Hlocked.
    destruct (guidance_publications (store sys) !! id) as [p|] eqn:Hrow.
    - destruct (step_keeps_rows cfg fl now op sys id p Hrow)
        as (q & Hq & [-> | [(r & n & ->) | (reason & ->)]]);
        rewrite Hq in Hrow'; injection Hrow' as <-.
      + by apply (Hinv id p).
      + cbn in *. by apply (Hinv id p).
      + done.
    - destruct (step_new_rows cfg fl now op sys id p' Hrow Hrow') as [body ->].
      discriminate Hlocked. }
  split; [exact Hinv' |]. intros Hf He id p' Hrow' Hrb.
  unfold getPublication. rewrite Hf, Hrow', He.
  eexists. split; [reflexivity |]. cbn. split; [| reflexivity].
  destruct (can_rollback p') eqn:Hc; [reflexivity |].
  by destruct (Hinv' id p' Hrow' Hc).
Qed.

(** On the store with a rolled-back row and a row that was not rolled back,
    after a rollback request that comes an hour too late. *)
Lemma can_rollback_is_cleared_only_by_rollback_witness :
  locked_only_by_rollback Scenario.mixed_store
  ∧ (step Scenario.config_A no_faults (Scenario.T0 + 60 * Scenario.minute)
       (OpRollback Scenario.test_id "superseded") Scenario.mixed_system).1
    = Http (GracePeriodExpired (Scenario.T0 - 55 * Scenario.minute))
  ∧ ∃ s, getPublication no_faults Scenario.test_id
           (store (step Scenario.config_A no_faults (Scenario.T0 + 60 * Scenario.minute)
                     (OpRollback Scenario.test_id "superseded") Scenario.mixed_system).2)
         = PublicationStatus s
         ∧ status_can_rollback s = true
         ∧ status_grace_period_ends_at s = grace_period_ends_at Scenario.is_test_row.
Proof.
  assert (locked_only_by_rollback Scenario.mixed_store) as Hinv.
  { intros id p Hrow Hlocked. unfold Scenario.mixed_store in Hrow. cbn in Hrow.
    apply lookup_insert_Some in Hrow as [[_ <-] | [_ Hrow]]; [discriminate Hlocked |].
    apply lookup_singleton_Some in Hrow as [_ <-]. discriminate. }
  split; [exact Hinv |]. split; [vm_compute; reflexivity |].
  apply (proj2 (can_rollback_is_cleared_only_by_rollback Scenario.config_A no_faults
                  no_faults (Scenario.T0 + 60 * Scenario.minute)
                  (OpRollback Scenario.test_id "superseded") Scenario.mixed_system Hinv)
               eq_refl eq_refl Scenario.test_id Scenario.is_test_row);
    vm_compute; reflexivity.
Defined.

(** * Further properties of the queue *)

Section Retries.
Variable cfg : safety_config.

Lemma processJob_throws_once_due (fl : faults) (now : Z) (j : job) (db : database)
    (p : publication) (s : Z) :
  0 < gracePeriodMinutes cfg →
  guidance_publications db !! publicationId (data j) = Some p →
  scheduled_for p = Some s → s ≤ now →
  ∃ e, processJob cfg fl now j db = (Thrown e, db).
Proof.
  intros Hg Hrow Hs Hdue. destruct (fetch_fails fl) eqn:Hf.
  - unfold processJob. rewrite Hf. eauto.
  - rewrite (processJob_once_due cfg fl now j db p s) by done. eauto.
Qed.

(** One attempt on a job whose publication is due. *)
Lemma refused_attempt (fl : faults) (now : Z) (i : nat) (sys : system) (j : job)
    (p : publication) (s : Z) :
  0 < gracePeriodMinutes cfg →
  waiting sys !! i = Some j → timestamp j + delay j ≤ now →
  guidance_publications (store sys) !! publicationId (data j) = Some p →
  scheduled_for p = Some s → s ≤ now →
  ∃ e, step cfg fl now (OpProcessJob i) sys
       = (JobRan (Thrown e),
          if (S (attemptsMade j) <? attempts)%nat
          then {| store := store sys;
                  waiting := <[ i := retry now j ]> (waiting sys);
                  failed_jobs := failed_jobs sys |}
          else {| store := store sys;
                  waiting := delete i (waiting sys);
                  failed_jobs := failed_jobs sys ++ [j] |}).
Proof.
  intros Hg Hj Hdue Hrow Hs Hle.
  destruct (processJob_throws_once_due fl now j (store sys) p s) as [e He]; try done.
  exists e. cbn [step]. unfold processNext. rewrite Hj.
  replace (due now j) with true by (symmetry; by apply Z.leb_le).
  cbn [negb]. rewrite He. by destruct (S (attemptsMade j) <? attempts)%nat.
Qed.

Lemma delete_after_insert (i : nat) (j : job) (queue : list job) :
  delete i (<[ i := j ]> queue) = delete i queue.
Proof.
  revert i. induction queue as [| j' queue IH]; intros [| i]; cbn; try done.
  by rewrite IH.
Qed.

End Retries.

(** X20: a job whose publication is due is never delivered.  With a
    positive grace duration the handler throws at each of the three attempts
    the queue makes, the second not before 2 seconds after the first and the
    third not before 6 seconds after the second; the job then leaves the
    waiting jobs for the failed ones and the store is as it was before the
    first attempt. *)
Theorem refused_job_is_retried_twice_and_parked (cfg : safety_config) (fl1 fl2 fl3 : faults)
    (n1 n2 n3 : Z) (i : nat) (sys : system) (j : job) (p : publication) (s : Z) :
  0 < gracePeriodMinutes cfg →
  waiting sys !! i = Some j → attemptsMade j = 0%nat →
  guidance_publications (store sys) !! publicationId (data j) = Some p →
  scheduled_for p = Some s →
  s ≤ n1 → timestamp j + delay j ≤ n1 → n1 + 2000 ≤ n2 → n2 + 6000 ≤ n3 →
  let r1 := step cfg fl1 n1 (OpProcessJob i) sys in
  let r2 := step cfg fl2 n2 (OpProcessJob i) r1.2 in
  let r3 := step cfg fl3 n3 (OpProcessJob i) r2.2 in
  (∃ e1 e2 e3, r1.1 = JobRan (Thrown e1) ∧ r2.1 = JobRan (Thrown e2)
               ∧ r3.1 = JobRan (Thrown e3))
  ∧ (∀ now, now < n1 + 2000 → step cfg fl2 now (OpProcessJob i) r1.2 = (NoJob, r1.2))
  ∧ (∀ now, now < n2 + 6000 → step cfg fl3 now (OpProcessJob i) r2.2 = (NoJob, r2.2))
  ∧ store r3.2 = store sys
  ∧ waiting r3.2 = delete i (waiting sys)
  ∧ ∃ j', failed_jobs r3.2 = failed_jobs sys ++ [j'] ∧ data j' = data j.
Proof.
  intros Hg Hj Hfirst Hrow Hs H1 Hdue H2 H3.
  assert (i < List.length (waiting sys))%nat as Hi by by eapply lookup_lt_Some.
  destruct (refused_attempt cfg fl1 n1 i sys j p s) as [e1 He1]; try done.
  rewrite Hfirst in He1. cbn [Nat.ltb Nat.leb attempts] in He1.
  cbv zeta. rewrite He1. cbn [fst snd].
  set (sys1 := {| store := store sys; waiting := <[i:=retry n1 j]> (waiting sys);
                  failed_jobs := failed_jobs sys |}).
  assert (waiting sys1 !! i = Some (retry n1 j)) as Hj1
    by by apply list_lookup_insert_eq.
  assert (delay (retry n1 j) = 2000) as Hd1
    by (unfold retry; cbn [delay]; by rewrite Hfirst).
  destruct (refused_attempt cfg fl2 n2 i sys1 (retry n1 j) p s) as [e2 He2]; try done.
  { rewrite Hd1. cbn. lia. }
  { lia. }
  cbn [retry attemptsMade] in He2. rewrite Hfirst in He2.
  cbn [Nat.ltb Nat.leb attempts] in He2. rewrite He2. cbn [fst snd].
  set (sys2 := {| store := store sys1; waiting := <[i:=retry n2 (retry n1 j)]> (waiting sys1);
                  failed_jobs := failed_jobs sys1 |}).
  assert (waiting sys2 !! i = Some (retry n2 (retry n1 j))) as Hj2.
  { apply list_lookup_insert_eq. subst sys1. cbn. by rewrite length_insert. }
  assert (delay (retry n2 (retry n1 j)) = 6000) as Hd2
    by (unfold retry; cbn [delay attemptsMade]; by rewrite Hfirst).
  destruct (refused_attempt cfg fl3 n3 i sys2 (retry n2 (retry n1 j)) p s)
    as [e3 He3]; try done.
  { rewrite Hd2. cbn. lia. }
  { lia. }
  cbn [retry attemptsMade] in He3. rewrite Hfirst in He3.
  cbn [Nat.ltb Nat.leb attempts] in He3. rewrite He3. cbn [fst snd].
  split_and!.
  - by exists e1, e2, e3.
  - intros now Hnow. cbn [step]. unfold processNext. rewrite Hj1.
    replace (due now (retry n1 j)) with false; [done |].
    symmetry. apply Z.leb_gt. rewrite Hd1. cbn. lia.
  - intros now Hnow. cbn [step]. unfold processNext. rewrite Hj2.
    replace (due now (retry n2 (retry n1 j))) with false; [done |].
    symmetry. apply Z.leb_gt. rewrite Hd2. cbn. lia.
  - done.
  - cbn. by rewrite !delete_after_insert.
  - by eexists.
Qed.

(** Scenario A's job, attempted at the scheduled time, 2 seconds and 8
    seconds later. *)
Lemma refused_job_witness :
  let r1 := step Scenario.config_A no_faults Cases.first_attempt (OpProcessJob 0)
              Scenario.system_A in
  let r2 := step Scenario.config_A no_faults Cases.second_attempt (OpProcessJob 0) r1.2 in
  let r3 := step Scenario.config_A no_faults Cases.third_attempt (OpProcessJob 0) r2.2 in
  (∃ e1 e2 e3, r1.1 = JobRan (Thrown e1) ∧ r2.1 = JobRan (Thrown e2)
               ∧ r3.1 = JobRan (Thrown e3))
  ∧ (∀ now, now < Cases.first_attempt + 2000 →
       step Scenario.config_A no_faults now (OpProcessJob 0) r1.2 = (NoJob, r1.2))
  ∧ (∀ now, now < Cases.second_attempt + 6000 →
       step Scenario.config_A no_faults now (OpProcessJob 0) r2.2 = (NoJob, r2.2))
  ∧ store r3.2 = store Scenario.system_A
  ∧ waiting r3.2 = delete 0%nat (waiting Scenario.system_A)
  ∧ ∃ j', failed_jobs r3.2 = failed_jobs Scenario.system_A ++ [j']
          ∧ data j' = data (new_job Scenario.T0 Scenario.test_id Scenario.body_A).
Proof.
  apply (refused_job_is_retried_twice_and_parked Scenario.config_A no_faults no_faults
           no_faults Cases.first_attempt Cases.second_attempt Cases.third_attempt 0
           Scenario.system_A (new_job Scenario.T0 Scenario.test_id Scenario.body_A)
           (new_publication Scenario.T0 Scenario.test_id Scenario.body_A)
           (Scenario.T0 + 10 * Scenario.minute));
    vm_compute; try reflexivity; discriminate.
Defined.

(** * Further properties of the configuration *)

Section SplitComma.

Lemma split_comma_nonempty (s : string) :
  ∃ piece pieces, split_comma s = piece :: pieces.
Proof.
  induction s as [| c s (piece & pieces & IH)]; cbn; [eauto |].
  destruct (Ascii.eqb c ","); [eauto |]. rewrite IH. eauto.
Qed.

Lemma split_comma_comma_free (a : string) :
  comma_free a = true → split_comma a = [a].
Proof.
  unfold comma_free. induction a as [| c a IH]; cbn; [done |].
  destruct (Ascii.eqb c ","); cbn; [done |]. intros Ha. by rewrite IH.
Qed.

Lemma split_comma_app (a s : string) :
  comma_free a = true →
  split_comma (String.append a (String ","%char s)) = a :: split_comma s.
Proof.
  unfold comma_free. induction a as [| c a IH]; simpl; [done |].
  destruct (Ascii.eqb c ","); simpl; [done |]. intros Ha. by rewrite IH.
Qed.

Lemma pieces_are_comma_free (s : string) :
  Forall (λ a, comma_free a = true) (split_comma s).
Proof.
  induction s as [| c s IH]; cbn; [by constructor |].
  destruct (Ascii.eqb c ",") eqn:Hc; [by constructor |].
  destruct (split_comma s) as [| piece pieces]; inversion IH; subst;
    constructor; try done; unfold comma_free in *; cbn; by rewrite Hc.
Qed.

Lemma or_default_empty (s : string) : or_default (Some s) "" = s.
Proof. unfold or_default. by destruct (String.eqb_spec s "") as [-> |]. Qed.

Lemma filtered_pieces (l : list string) :
  Forall (λ a, comma_free a = true) l →
  List.filter nonempty (split_comma (String.concat "," l)) = List.filter nonempty l.
Proof.
  induction l as [| a l IH]; [done |]. intros Hl.
  inversion Hl as [| ? ? Ha Hl']; subst. destruct l as [| b l].
  - cbn [String.concat]. by rewrite split_comma_comma_free.
  - change (String.concat "," (a :: b :: l))
      with (String.append a (String ","%char (String.concat "," (b :: l)))).
    rewrite split_comma_app by done. cbn [List.filter]. by rewrite IH.
Qed.

End SplitComma.

(** X21: the test addresses are read from [TEST_GROUP_EMAILS] as the pieces
    between its commas, without the empty ones: a list of addresses written
    with commas between them, stray commas included, is read back as its
    non-empty members, in order. *)
Theorem test_addresses_are_read_back (env : gmap string string) (l : list string) :
  Forall (λ a, comma_free a = true) l →
  env !! "TEST_GROUP_EMAILS"%string = Some (String.concat "," l) →
  testGroupEmails_of env = List.filter nonempty l.
Proof.
  intros Hl Henv. unfold testGroupEmails_of. rewrite Henv, or_default_empty.
  by apply filtered_pieces.
Qed.

Lemma test_addresses_witness :
  testGroupEmails_of Cases.env_with_stray_commas
  = ["a@nuj.example"; "b@nuj.example"]%string.
Proof.
  apply (test_addresses_are_read_back Cases.env_with_stray_commas
           ["a@nuj.example"; ""; "b@nuj.example"; ""]%string).
  - repeat constructor.
  - reflexivity.
Defined.

(** X22: whatever the environment holds, no test address read from it is
    empty or contains a comma, so no test recipient has an empty address;
    approval and rollback are switched off by the exact value 'false' of
    their variables and by nothing else; and the list of CORS origins is
    never empty. *)
Theorem configuration_read_from_any_environment (env : gmap string string) :
  Forall (λ a, nonempty a = true ∧ comma_free a = true) (testGroupEmails_of env)
  ∧ (approvalRequired_of env = false ↔ env !! "APPROVAL_REQUIRED"%string = Some "false"%string)
  ∧ (enableRollback_of env = false ↔ env !! "ENABLE_ROLLBACK"%string = Some "false"%string)
  ∧ ∃ origin origins, corsOrigins_of env = origin :: origins.
Proof.
  split_and!.
  - unfold testGroupEmails_of. apply Forall_forall.
    intros a [Ha Hn]%list_elem_of_In%filter_In. split; [done |].
    apply list_elem_of_In in Ha.
    clear Hn. revert a Ha. apply Forall_forall, pieces_are_comma_free.
  - unfold approvalRequired_of, not_false.
    destruct (env !! "APPROVAL_REQUIRED"%string) as [s|]; [| done].
    destruct (String.eqb_spec s "false") as [-> | Hne]; cbn; [done |].
    split; [done | by intros [= ->]].
  - unfold enableRollback_of, not_false.
    destruct (env !! "ENABLE_ROLLBACK"%string) as [s|]; [| done].
    destruct (String.eqb_spec s "false") as [-> | Hne]; cbn; [done |].
    split; [done | by intros [= ->]].
  - unfold corsOrigins_of. destruct (env !! "CORS_ORIGINS"%string) as [s|]; [| eauto].
    destruct (String.eqb s ""); [eauto |]. apply split_comma_nonempty.
Qed.
